(** * imagespace_smqtk: the IQR resource of [server/smqtk_iqr.py]

    A shallow embedding of the [SmqtkIqr] resource: the refine protocol
    ([_refine]), the session reconciliation and the result merge
    ([results]).  The ranking engine (reached through [requests]), the
    document index ([solr_documents_from_field]) and the builtin [int] are
    collaborators outside the file; they are the fields of [services] and
    every statement is made for all of them. *)

From Stdlib Require Import ZArith QArith Ascii String List Lia Sorted OrderedTypeEx.
From stdpp Require Import base option list gmap strings.

Local Open Scope Z_scope.

(** ** Python values that travel through the resource *)

(** A metadata or body value: a string ([sid]) or a list of ids
    ([pos_uuids], [neg_uuids]). *)
Inductive value :=
  | VStr (s : string)
  | VList (l : list string).

(** The exceptions the code can meet. *)
Inductive exn :=
  | KeyError (k : string)
  | IndexError
  | ValueError
  | ConnectionError.

Inductive outcome (A : Type) :=
  | Ok (a : A)
  | Raise (e : exn).
Arguments Ok {A} a.
Arguments Raise {A} e.

(** The field [sha1sum_s_md] of a Solr document: one checksum or a list of
    checksums (a group of duplicates). *)
Inductive sha_field :=
  | Sha (s : string)
  | Shas (l : list string).

(** A Solr document.  [doc_id] stands for the fields the resource never
    reads; [smqtk_iqr_confidence] is the key the merge adds. *)
Record document := Document {
  doc_id : string;
  sha1sum_s_md : sha_field;
  smqtk_iqr_confidence : option Q
}.

(** A Girder item of the sessions folder, with its metadata dict. *)
Record item := Item {
  item_name : string;
  meta : gmap string value
}.

(** The JSON object of an engine response, by the keys the code reads;
    [rest] holds what is passed through unread. *)
Record payload := Payload {
  total_results : option Z;
  ranked : option (list (string * Q));   (* the key 'results' *)
  rest : string
}.

Record response := Response {
  status_code : Z;
  body : option payload      (* None: the body is not JSON *)
}.

(** [Response.ok] of the requests library: no 4xx and no 5xx status. *)
Definition ok (r : response) : bool :=
  negb ((400 <=? status_code r)%Z && (status_code r <? 600)%Z).

(** The three calls made on [search_url].  In [PutRefine] the two id lists
    travel encoded by [json.dumps]. *)
Inductive request :=
  | PostSession (sid : value)
  | PutRefine (sid pos_uuids neg_uuids : value)
  | GetResults (sid : string) (i j : Z).

(** The value returned by [results]. *)
Record page := Page {
  numFound : Z;
  docs : list document
}.

(** ** The collaborators *)

Record services := Services {
  engine : Type;
  serve : engine -> request -> engine * outcome response;
  solr_documents_from_field : string -> list string -> outcome (list document);
  py_int : string -> outcome Z
}.

(** What a request handler can see and change: the engine behind
    [search_url], the items of the sessions folder, the lines written by
    [logger.error] and the calls made so far, both oldest first. *)
Record world (S : services) := World {
  engine_state : engine S;
  items : list item;
  logged : list string;
  sent : list request
}.
Arguments World {S}.
Arguments engine_state {S}.
Arguments items {S}.
Arguments logged {S}.
Arguments sent {S}.

(** ** A state and exception monad *)

Definition M (S : services) (A : Type) : Type := world S -> outcome A * world S.

Definition ret {S A} (a : A) : M S A := fun w => (Ok a, w).

Definition raise {S A} (e : exn) : M S A := fun w => (Raise e, w).

Definition bind {S A B} (m : M S A) (f : A -> M S B) : M S B :=
  fun w =>
    match m w with
    | (Ok a, w') => f a w'
    | (Raise e, w') => (Raise e, w')
    end.

Declare Scope py_scope.
Delimit Scope py_scope with py.
Notation "x <- m ;; k" := (bind m (fun x => k))
  (at level 100, m at next level, right associativity) : py_scope.
Notation "m ;;; k" := (bind m (fun _ => k))
  (at level 100, right associativity) : py_scope.
Local Open Scope py_scope.

Definition lift {S A} (o : outcome A) : M S A := fun w => (o, w).

(** [try: m  except KeyError: ...]: [None] when [m] raised a [KeyError]. *)
Definition except_KeyError {S A} (m : M S A) : M S (option A) :=
  fun w =>
    match m w with
    | (Ok a, w') => (Ok (Some a), w')
    | (Raise (KeyError _), w') => (Ok None, w')
    | (Raise e, w') => (Raise e, w')
    end.

Fixpoint mapM {S A B} (f : A -> M S B) (l : list A) : M S (list B) :=
  match l with
  | [] => ret []
  | a :: l' => b <- f a ;; bs <- mapM f l' ;; ret (b :: bs)
  end.

(** [d[k]] on a dict. *)
Definition getitem {S V} (d : gmap string V) (k : string) : M S V :=
  match d !! k with
  | Some v => ret v
  | None => raise (KeyError k)
  end.

(** [d[k]] on a decoded JSON object. *)
Definition getkey {S V} (field : option V) (k : string) : M S V :=
  match field with
  | Some v => ret v
  | None => raise (KeyError k)
  end.

(** [requests.post], [requests.put] and [requests.get] on [search_url]. *)
Definition http {S} (rq : request) : M S response :=
  fun w =>
    let '(e, r) := serve S (engine_state w) rq in
    (r, World e (items w) (logged w) (sent w ++ [rq])).

(** [r.json()]. *)
Definition json {S} (r : response) : M S payload :=
  match body r with
  | Some p => ret p
  | None => raise ValueError
  end.

(** [logger.error(line)]. *)
Definition logger_error {S} (line : string) : M S unit :=
  fun w => (Ok tt, World (engine_state w) (items w) (logged w ++ [line]) (sent w)).

(** [self.model('item').findOne({'meta.sid': sid})]: the first item whose
    metadata holds that sid. *)
Definition has_sid (sid : string) (it : item) : bool :=
  match meta it !! "sid" with
  | Some (VStr s) => String.eqb s sid
  | _ => false
  end.

Definition findOne {S} (sid : string) : M S (option item) :=
  fun w => (Ok (List.find (has_sid sid) (items w)), w).

(** ** The resource *)

(** The checksum a document is ranked by: [x['sha1sum_s_md'][0]] for a
    list, [x['sha1sum_s_md']] otherwise. *)
Definition first_sha (f : sha_field) : outcome string :=
  match f with
  | Sha s => Ok s
  | Shas (s :: _) => Ok s
  | Shas [] => Raise IndexError
  end.

(** [dict(pairs)]: the pairs are inserted in order. *)
Definition dict (pairs : list (string * Q)) : gmap string Q :=
  foldl (fun m kv => <[kv.1 := kv.2]> m) ∅ pairs.

(** Python's [<] on the key tuples: the first components decide unless
    they are equal. *)
Definition key_lt (a b : Q * string) : bool :=
  match (a.1 ?= b.1)%Q with
  | Lt => true
  | Eq => String.ltb a.2 b.2
  | Gt => false
  end.

(** [sorted(l, key=..., reverse=True)] on a list decorated with its keys:
    decreasing and stable, an element goes after the greater ones and
    before the first one that is not greater.  The result of a stable sort
    does not depend on the algorithm, so insertion stands for Timsort. *)
Fixpoint insert_desc {A} (x : (Q * string) * A) (l : list ((Q * string) * A)) :=
  match l with
  | [] => [x]
  | y :: l' => if key_lt x.1 y.1 then y :: insert_desc x l' else x :: l
  end.

Definition sort_desc {A} (l : list ((Q * string) * A)) : list ((Q * string) * A) :=
  foldr insert_desc [] l.

(** The line of [logger.error], line 168. *)
Definition no_document_line (sid : string) : string :=
  "SID " +:+ sid +:+
  ": There are SMQTK descriptors that have no corresponding Solr document(s).".

Section SmqtkIqr.

Variable S : services.

(** [_refine(self, params)], lines 109-120: force the creation of the
    session, push the two id lists, return the decoded answer. *)
Definition _refine (params : gmap string value) : M S payload :=
  sid <- getitem params "sid" ;;
  http (PostSession sid) ;;;
  sid <- getitem params "sid" ;;
  pos_uuids <- getitem params "pos_uuids" ;;
  neg_uuids <- getitem params "neg_uuids" ;;
  r <- http (PutRefine sid pos_uuids neg_uuids) ;;
  json r.

(** [sid_exists(sid)], lines 130-135, a closure over [params]: it posts
    [params['sid']], whatever its argument is. *)
Definition sid_exists (params : gmap string string) (sid : string) : M S bool :=
  sid' <- getitem params "sid" ;;
  r <- http (PostSession (VStr sid')) ;;
  ret (negb (ok r)).

(** [int(params[k] if k in params else default)], lines 137-138. *)
Definition int_param (params : gmap string string) (k : string) (default : Z) : outcome Z :=
  match params !! k with
  | Some s => py_int S s
  | None => Ok default
  end.

(** Lines 140-148: replay the stored labels when the engine did not know
    the session. *)
Definition reconcile (params : gmap string string) : M S unit :=
  sid <- getitem params "sid" ;;
  live <- sid_exists params sid ;;
  if negb live then
    sid <- getitem params "sid" ;;
    session <- findOne sid ;;
    match session with
    | Some it =>
        sid <- getitem params "sid" ;;
        pos_uuids <- getitem (meta it) "pos_uuids" ;;
        neg_uuids <- getitem (meta it) "neg_uuids" ;;
        _refine {[ "sid" := VStr sid; "pos_uuids" := pos_uuids; "neg_uuids" := neg_uuids ]} ;;;
        ret tt
    | None => ret tt
    end
  else ret tt.

(** Lines 150-154: ask the engine for the window from [i] to [j]. *)
Definition get_results (params : gmap string string) (offset limit : Z) : M S payload :=
  sid <- getitem params "sid" ;;
  r <- http (GetResults sid offset (offset + limit)) ;;
  json r.

(** Lines 137-154, all that [results] does before it merges. *)
Definition ask_engine (params : gmap string string) : M S payload :=
  offset <- lift (int_param params "offset" 0) ;;
  limit <- lift (int_param params "limit" 20) ;;
  reconcile params ;;;
  get_results params offset limit.

(** The body of the loop of lines 170-174. *)
Definition set_confidence (confidenceValues : gmap string Q) (d : document) : M S document :=
  sha <- lift (first_sha (sha1sum_s_md d)) ;;
  c <- getitem confidenceValues sha ;;
  ret (Document (doc_id d) (sha1sum_s_md d) (Some c)).

(** The sort key of lines 179-180. *)
Definition sort_key (x : document) : M S (Q * string) :=
  c <- getkey (smqtk_iqr_confidence x) "smqtk_iqr_confidence" ;;
  sha <- lift (first_sha (sha1sum_s_md x)) ;;
  ret (c, sha).

(** [sorted(documents, key=sort_key, reverse=True)]: the keys are computed
    first, one per element, then the list is sorted on them. *)
Definition sorted_reverse (documents : list document) : M S (list document) :=
  keyed <- mapM (fun x => k <- sort_key x ;; ret (k, x)) documents ;;
  ret (map snd (sort_desc keyed)).

(** Lines 156-182, from the decoded answer [resp] of the engine. *)
Definition merge (params : gmap string string) (resp : payload) : M S page :=
  fetched <- except_KeyError
               (pairs <- getkey (ranked resp) "results" ;;
                lift (solr_documents_from_field S "sha1sum_s_md" (map fst pairs))) ;;
  match fetched with
  | None => ret (Page 0 [])
  | Some documents =>
      pairs <- getkey (ranked resp) "results" ;;
      let confidenceValues := dict pairs in
      pairs <- getkey (ranked resp) "results" ;;
      (if (Z.of_nat (length documents) <? Z.of_nat (length pairs))%Z then
         sid <- getitem params "sid" ;;
         logger_error (no_document_line sid)
       else ret tt) ;;;
      documents <- mapM (set_confidence confidenceValues) documents ;;
      total <- getkey (total_results resp) "total_results" ;;
      sorted <- sorted_reverse documents ;;
      ret (Page total sorted)
  end.

(** [results(self, params)], lines 129-182. *)
Definition results (params : gmap string string) : M S page :=
  resp <- ask_engine params ;;
  merge params resp.

End SmqtkIqr.

(** ** A reference engine and index

    A ranking engine that follows the wire contract (a session is created
    once, a second creation is refused with 409) and answers every
    [get_results] with [answer]; an index that resolves every batch to
    [found]; decimal notation for [int]. *)

(** ASCII white space, which [int] skips at both ends. *)
Definition is_space (c : ascii) : bool :=
  let n := N_of_ascii c in
  (n =? 32)%N || ((9 <=? n)%N && (n <=? 13)%N).

Fixpoint lstrip (l : list ascii) : list ascii :=
  match l with
  | c :: l' => if is_space c then lstrip l' else l
  | [] => []
  end.

Definition strip (l : list ascii) : list ascii :=
  rev (lstrip (rev (lstrip l))).

Definition digit_of (c : ascii) : option Z :=
  let n := Z.of_N (N_of_ascii c) in
  if (48 <=? n) && (n <=? 57) then Some (n - 48) else None.

Fixpoint digits_value (acc : Z) (l : list ascii) : option Z :=
  match l with
  | [] => Some acc
  | c :: l' =>
      match digit_of c with
      | Some d => digits_value (10 * acc + d) l'
      | None => None
      end
  end.

(** [int] on ASCII decimal notation: white space around, one optional
    sign, then at least one digit; anything else is a [ValueError] (digit
    separators included). *)
Definition decimal_int (s : string) : outcome Z :=
  let stripped := strip (String.list_ascii_of_string s) in
  let signed :=
    match stripped with
    | c :: ds =>
        if Ascii.eqb c (ascii_of_nat 45) then (true, ds)
        else if Ascii.eqb c (ascii_of_nat 43) then (false, ds)
        else (false, stripped)
    | [] => (false, [])
    end in
  match signed.2 with
  | [] => Raise ValueError
  | ds =>
      match digits_value 0 ds with
      | Some n => Ok (if signed.1 then - n else n)
      | None => Raise ValueError
      end
  end.

Definition reference_serve (answer : payload) (live : list string) (rq : request)
  : list string * outcome response :=
  match rq with
  | PostSession (VStr s) =>
      if existsb (String.eqb s) live then (live, Ok (Response 409 None))
      else (s :: live, Ok (Response 200 (Some (Payload None None "sid"))))
  | PostSession (VList _) => (live, Ok (Response 400 None))
  | PutRefine _ _ _ => (live, Ok (Response 200 (Some (Payload None None "refined"))))
  | GetResults _ _ _ => (live, Ok (Response 200 (Some answer)))
  end.

Definition reference (answer : payload) (found : outcome (list document)) : services :=
  Services (list string) (reference_serve answer) (fun _ _ => found) decimal_int.

Definition fresh (answer : payload) (found : outcome (list document)) (stored : list item)
  : world (reference answer found) :=
  @World (reference answer found) [] stored [] [].

(** ** What the loops and the sort compute *)

(** The loops of the merge leave the world alone; they are maps in the
    exception monad. *)
Fixpoint traverse {A B} (f : A -> outcome B) (l : list A) : outcome (list B) :=
  match l with
  | [] => Ok []
  | a :: l' =>
      match f a with
      | Ok b =>
          match traverse f l' with
          | Ok bs => Ok (b :: bs)
          | Raise e => Raise e
          end
      | Raise e => Raise e
      end
  end.

(** What [set_confidence] returns. *)
Definition confidence_of (confidenceValues : gmap string Q) (d : document) : outcome document :=
  match first_sha (sha1sum_s_md d) with
  | Ok sha =>
      match confidenceValues !! sha with
      | Some c => Ok (Document (doc_id d) (sha1sum_s_md d) (Some c))
      | None => Raise (KeyError sha)
      end
  | Raise e => Raise e
  end.

(** What the decoration of [sorted_reverse] returns. *)
Definition keyed_of (x : document) : outcome ((Q * string) * document) :=
  match smqtk_iqr_confidence x with
  | Some c =>
      match first_sha (sha1sum_s_md x) with
      | Ok sha => Ok ((c, sha), x)
      | Raise e => Raise e
      end
  | None => Raise (KeyError "smqtk_iqr_confidence")
  end.

(** The world after line 168. *)
Definition after_length_check {S} (sid : string) (documents : list document)
    (pairs : list (string * Q)) (w : world S) : world S :=
  if (Z.of_nat (length documents) <? Z.of_nat (length pairs))%Z
  then World (engine_state w) (items w) (logged w ++ [no_document_line sid]) (sent w)
  else w.

(** [x] is not smaller than [y] in the order of the keys. *)
Definition key_ge {A} (x y : (Q * string) * A) : Prop := key_lt x.1 y.1 = false.

(** The world after the engine has answered the calls [new]. *)
Definition answered {S} (w : world S) (e : engine S) (new : list request) : world S :=
  World e (items w) (logged w) (sent w ++ new).

(** ** The calls made on the engine *)

(** The calls a run adds to those already made. *)
Definition calls {S} (w w' : world S) : list request :=
  drop (length (sent w)) (sent w').

Definition not_a_fetch (rq : request) : Prop :=
  match rq with
  | GetResults _ _ _ => False
  | _ => True
  end.

(** [m] only adds calls, and only calls that satisfy [P]. *)
Definition adds_calls {S A} (P : request -> Prop) (m : M S A) : Prop :=
  forall w, exists new, sent (snd (m w)) = sent w ++ new /\ Forall P new.

(** The engine answers every call: no connection error. *)
Definition responsive (S : services) : Prop :=
  forall e rq, exists e' r, serve S e rq = (e', Ok r).

(** ** Worked inputs *)

(** The example of the specification. *)
Definition ex_ranked : list (string * Q) :=
  [("a1", 9 # 10); ("a2", 9 # 10); ("a3", 1 # 10)]%Q.

Definition doc_a1 : document := Document "doc-a1" (Sha "a1") None.
Definition doc_a2 : document := Document "doc-a2" (Shas ["a2"; "a9"]) None.

Definition scored (d : document) (c : Q) : document :=
  Document (doc_id d) (sha1sum_s_md d) (Some c).

Definition ex_answer : payload := Payload (Some 3) (Some ex_ranked) "extra".

Definition ex_params : gmap string string := {[ "sid" := "s1" ]}.

(** An answer of the engine without the key 'results'. *)
Definition ex_answer_unranked : payload := Payload (Some 3) None "extra".

(** A document whose checksum the engine did not rank. *)
Definition ex_orphan : document := Document "doc-zz" (Sha "zz") None.

Definition ex_answer_one : payload := Payload (Some 1) (Some [("a1", 9 # 10)%Q]) "extra".

(** A stored record and a refine body for the same session. *)
Definition ex_stored : list item :=
  [Item "s1" {[ "sid" := VStr "s1"; "pos_uuids" := VList ["p1"];
                "neg_uuids" := VList [] ]}].

Definition ex_submitted : gmap string value :=
  {[ "sid" := VStr "s1"; "pos_uuids" := VList ["p1"; "p2"];
     "neg_uuids" := VList ["n1"] ]}.

(** Records with empty label sets and with none. *)
Definition ex_stored_empty : list item :=
  [Item "s1" {[ "sid" := VStr "s1"; "pos_uuids" := VList [];
                "neg_uuids" := VList [] ]}].

Definition ex_stored_no_labels : list item :=
  [Item "s1" {[ "sid" := VStr "s1" ]}].

(** ** The effects of a run *)

(** [m] changes nothing in the world. *)
Definition quiet {S A} (m : M S A) : Prop := forall w, snd (m w) = w.

(** [m] leaves the items alone, makes at most [c] calls, all of them
    satisfying [P], and logs at most [l] lines. *)
Definition effects {S A} (P : request -> Prop) (c l : nat) (m : M S A) : Prop :=
  forall w,
    items (snd (m w)) = items w /\
    (exists new, sent (snd (m w)) = sent w ++ new /\ Forall P new /\
                 (length new <= c)%nat) /\
    (exists lines, logged (snd (m w)) = logged w ++ lines /\
                   (length lines <= l)%nat).

(** The lines a run adds to the log. *)
Definition lines_logged {S} (w w' : world S) : list string :=
  drop (length (logged w)) (logged w').

(** The document is ranked by the checksum [sha]. *)
Definition ranked_by (sha : string) (d : document) : bool :=
  match first_sha (sha1sum_s_md d) with
  | Ok s => String.eqb s sha
  | Raise _ => false
  end.

(** The decoration of a document that has its confidence; any key for the
    others. *)
Definition decorated (x : document) : (Q * string) * document :=
  match keyed_of x with
  | Ok kx => kx
  | Raise _ => ((0%Q, "-"), x)
  end.

(** The services, the first world and the world after the fetch of the
    worked example. *)
Definition ex_services : services := reference ex_answer (Ok [doc_a1; doc_a2]).

Definition ex_world : world ex_services := fresh ex_answer (Ok [doc_a1; doc_a2]) [].

Definition ex_fetched : world ex_services :=
  @World ex_services ["s1"] [] [] [PostSession (VStr "s1"); GetResults "s1" 0 20].

(** The document with the confidence that the mapping has for its
    representative checksum. *)
Definition with_confidence (confidenceValues : gmap string Q) (d : document) : document :=
  Document (doc_id d) (sha1sum_s_md d)
    (match first_sha (sha1sum_s_md d) with
     | Ok sha => confidenceValues !! sha
     | Raise _ => None
     end).

(** The document can go through the loop of lines 170-174. *)
Definition has_confidence (confidenceValues : gmap string Q) (d : document) : Prop :=
  exists sha c, first_sha (sha1sum_s_md d) = Ok sha /\ confidenceValues !! sha = Some c.

(** An engine that cannot be reached, and one that answers a fetch with a
    body that is not JSON. *)
Definition offline : services :=
  Services unit (fun e _ => (e, Raise ConnectionError)) (fun _ _ => Ok []) decimal_int.

Definition garbled_serve (live : list string) (rq : request) : list string * outcome response :=
  match rq with
  | GetResults _ _ _ => (live, Ok (Response 200 None))
  | PutRefine _ _ _ => (live, Ok (Response 500 None))
  | _ => reference_serve ex_answer live rq
  end.

Definition garbled : services :=
  Services (list string) garbled_serve (fun _ _ => Ok []) decimal_int.

(** The world of the worked example when the engine already has the
    session and the folder has the stored record. *)
Definition ex_world_live : world ex_services :=
  @World ex_services ["s1"] ex_stored [] [].

(** A document with an empty list of checksums. *)
Definition ex_no_checksum : document := Document "doc-none" (Shas []) None.

(** An engine that refuses the creation of a live session with a
    redirection, status 302. *)
Definition redirecting_serve (live : list string) (rq : request)
  : list string * outcome response :=
  match rq with
  | PostSession (VStr s) =>
      if existsb (String.eqb s) live then (live, Ok (Response 302 None))
      else (s :: live, Ok (Response 200 (Some (Payload None None "sid"))))
  | _ => reference_serve ex_answer live rq
  end.

Definition redirecting : services :=
  Services (list string) redirecting_serve (fun _ _ => Ok []) decimal_int.

(** Parameters with a window of their own. *)
Definition ex_params_window : gmap string string :=
  {[ "sid" := "s1"; "offset" := "5"; "limit" := "7" ]}.

(** A second document of the checksum a1, and the services whose index
    lists it after the documents of a1 and a2. *)
Definition doc_a1_twin : document := Document "doc-a1-twin" (Shas ["a1"; "b7"]) None.

Definition ex_services_twin : services :=
  reference ex_answer (Ok [doc_a1; doc_a2; doc_a1_twin]).

(** ** The order of the sort keys *)

Section KeyOrder.

Lemma compare_lt_trans (s1 s2 s3 : string) :
  String.compare s1 s2 = Lt -> String.compare s2 s3 = Lt -> String.compare s1 s3 = Lt.
Proof.
  intros H12 H23.
  apply String_as_OT.cmp_lt.
  apply String_as_OT.lt_trans with s2; apply String_as_OT.cmp_lt; assumption.
Qed.

Lemma compare_not_lt_trans (s1 s2 s3 : string) :
  String.compare s1 s2 <> Lt -> String.compare s2 s3 <> Lt -> String.compare s1 s3 <> Lt.
Proof.
  intros H12 H23 H13.
  destruct (String.compare s1 s2) eqn:E12; [ | congruence | ].
  - apply String.compare_eq_iff in E12. subst s2. congruence.
  - apply H23. apply compare_lt_trans with s1; [ | assumption ].
    rewrite String.compare_antisym, E12. reflexivity.
Qed.

Lemma ltb_false_leb (s1 s2 : string) :
  String.ltb s1 s2 = false <-> String.leb s2 s1 = true.
Proof.
  unfold String.ltb, String.leb.
  rewrite (String.compare_antisym s2 s1).
  destruct (String.compare s1 s2); simpl; split; congruence.
Qed.

Lemma key_lt_false (a b : Q * string) :
  key_lt a b = false <->
  (b.1 < a.1)%Q \/ ((a.1 == b.1)%Q /\ String.leb b.2 a.2 = true).
Proof.
  unfold key_lt.
  destruct (Qcompare_spec a.1 b.1) as [E | L | G].
  - rewrite ltb_false_leb. split.
    + intros H. right. split; assumption.
    + intros [H | [_ H]]; [ | assumption ]. rewrite E in H.
      exfalso. apply (Qlt_irrefl _ H).
  - split; [ discriminate | ].
    intros [H | [H _]].
    + exfalso. apply (Qlt_irrefl a.1). apply Qlt_trans with b.1; assumption.
    + rewrite H in L. exfalso. apply (Qlt_irrefl _ L).
  - split; [ | reflexivity ]. intros _. left. assumption.
Qed.

Lemma key_lt_asym (a b : Q * string) : key_lt a b = true -> key_lt b a = false.
Proof.
  unfold key_lt. rewrite <- (Qcompare_antisym a.1 b.1).
  destruct (a.1 ?= b.1)%Q; simpl; try congruence.
  unfold String.ltb. rewrite (String.compare_antisym b.2 a.2).
  destruct (String.compare a.2 b.2); simpl; congruence.
Qed.

Lemma key_ge_trans (a b c : Q * string) :
  key_lt a b = false -> key_lt b c = false -> key_lt a c = false.
Proof.
  rewrite !key_lt_false.
  intros [Hab | [Eab Sab]] [Hbc | [Ebc Sbc]].
  - left. apply Qlt_trans with b.1; assumption.
  - left. rewrite <- Ebc. assumption.
  - left. rewrite Eab. assumption.
  - right. split; [ rewrite Eab; assumption | ].
    apply ltb_false_leb. apply ltb_false_leb in Sab, Sbc.
    unfold String.ltb in *.
    destruct (String.compare a.2 c.2) eqn:E; try reflexivity.
    exfalso. refine (compare_not_lt_trans a.2 b.2 c.2 _ _ E).
    + intros H. rewrite H in Sab. discriminate.
    + intros H. rewrite H in Sbc. discriminate.
Qed.

End KeyOrder.

(** ** The stable decreasing sort *)

Section SortDesc.

Context {A : Type}.

Lemma insert_desc_Permutation (x : (Q * string) * A) l : insert_desc x l ≡ₚ x :: l.
Proof.
  induction l as [ | y l IH]; simpl; [ reflexivity | ].
  destruct (key_lt x.1 y.1); [ | reflexivity ].
  rewrite IH. apply Permutation_swap.
Qed.

Lemma sort_desc_Permutation (l : list ((Q * string) * A)) : sort_desc l ≡ₚ l.
Proof.
  induction l as [ | x l IH]; simpl; [ reflexivity | ].
  rewrite insert_desc_Permutation. rewrite IH. reflexivity.
Qed.

Lemma insert_desc_sorted (x : (Q * string) * A) l :
  StronglySorted key_ge l -> StronglySorted key_ge (insert_desc x l).
Proof.
  induction 1 as [ | y l Hl IH Hy]; simpl.
  - constructor; constructor.
  - destruct (key_lt x.1 y.1) eqn:E.
    + constructor; [ assumption | ].
      rewrite insert_desc_Permutation. constructor; [ | assumption ].
      apply key_lt_asym. assumption.
    + constructor; [ constructor; assumption | ].
      constructor; [ assumption | ].
      eapply Forall_impl; [ eassumption | ].
      intros z Hz. unfold key_ge in *. eapply key_ge_trans; eassumption.
Qed.

Lemma sort_desc_sorted (l : list ((Q * string) * A)) : StronglySorted key_ge (sort_desc l).
Proof.
  induction l as [ | x l IH]; simpl; [ constructor | ].
  apply insert_desc_sorted. assumption.
Qed.

(** In a strongly sorted list the relation holds between any two
    positions. *)
Lemma StronglySorted_lookup {B} (R : B -> B -> Prop) (l : list B) (i j : nat) (x y : B) :
  StronglySorted R l -> (i < j)%nat -> l !! i = Some x -> l !! j = Some y -> R x y.
Proof.
  intros Hs. revert i j.
  induction Hs as [ | z l Hl IH Hz]; intros i j Hij Hi Hj.
  - rewrite lookup_nil in Hi. discriminate.
  - destruct j as [ | j]; [ lia | ].
    destruct i as [ | i]; simpl in *.
    + injection Hi as ->. rewrite Forall_forall in Hz.
      apply Hz. eapply list_elem_of_lookup_2. eassumption.
    + apply (IH i j); [ lia | assumption | assumption ].
Qed.

End SortDesc.

(** ** Running the monad *)

Section Runs.

Context {S : services}.

Lemma bind_Ok {A B} (m : M S A) (f : A -> M S B) w b w' :
  bind m f w = (Ok b, w') -> exists a w1, m w = (Ok a, w1) /\ f a w1 = (Ok b, w').
Proof.
  unfold bind. destruct (m w) as [[a | e] w1]; [ | discriminate ].
  intros H. exists a, w1. split; [ reflexivity | assumption ].
Qed.

Lemma bind_run {A B} (m : M S A) (f : A -> M S B) w a w1 :
  m w = (Ok a, w1) -> bind m f w = f a w1.
Proof. unfold bind. intros ->. reflexivity. Qed.

Lemma bind_raise {A B} (m : M S A) (f : A -> M S B) w e w1 :
  m w = (Raise e, w1) -> bind m f w = (Raise e, w1).
Proof. unfold bind. intros ->. reflexivity. Qed.

Lemma getitem_run {V} (d : gmap string V) k v (w : world S) :
  d !! k = Some v -> getitem d k w = (Ok v, w).
Proof. unfold getitem. intros ->. reflexivity. Qed.

Lemma getitem_Ok {V} (d : gmap string V) k v (w w' : world S) :
  getitem d k w = (Ok v, w') -> d !! k = Some v /\ w' = w.
Proof.
  unfold getitem. destruct (d !! k); unfold ret, raise; intros H; inversion H; auto.
Qed.

Lemma mapM_traverse {A B} (f : A -> M S B) (g : A -> outcome B) (l : list A) :
  (forall a w, f a w = (g a, w)) -> forall w, mapM f l w = (traverse g l, w).
Proof.
  intros Hf. induction l as [ | a l IH]; intros w; simpl; [ reflexivity | ].
  unfold bind. rewrite Hf. destruct (g a); [ | reflexivity ].
  rewrite IH. destruct (traverse g l); reflexivity.
Qed.

Lemma set_confidence_run cv d (w : world S) :
  set_confidence S cv d w = (confidence_of cv d, w).
Proof.
  unfold set_confidence, confidence_of, bind, lift, getitem.
  destruct (first_sha (sha1sum_s_md d)); [ | reflexivity ].
  destruct (cv !! a); reflexivity.
Qed.

Lemma sort_key_run x (w : world S) :
  bind (sort_key S x) (fun k => ret (k, x)) w = (keyed_of x, w).
Proof.
  unfold sort_key, keyed_of, bind, lift, getkey.
  destruct (smqtk_iqr_confidence x); [ | reflexivity ].
  simpl. destruct (first_sha (sha1sum_s_md x)); reflexivity.
Qed.

Lemma sorted_reverse_run documents (w : world S) :
  sorted_reverse S documents w =
  (match traverse keyed_of documents with
   | Ok keyed => Ok (map snd (sort_desc keyed))
   | Raise e => Raise e
   end, w).
Proof.
  unfold sorted_reverse, bind.
  rewrite (mapM_traverse _ keyed_of) by apply sort_key_run.
  destruct (traverse keyed_of documents); reflexivity.
Qed.

End Runs.

(** ** Traversals *)

Section Traverse.

Context {A B : Type}.

Lemma traverse_Ok (f : A -> outcome B) (l : list A) (l' : list B) :
  traverse f l = Ok l' -> Forall2 (fun a b => f a = Ok b) l l'.
Proof.
  revert l'. induction l as [ | a l IH]; simpl; intros l' H.
  - injection H as <-. constructor.
  - destruct (f a) eqn:Ea; [ | discriminate ].
    destruct (traverse f l) eqn:El; [ | discriminate ].
    injection H as <-. constructor; [ assumption | ]. apply IH. reflexivity.
Qed.

Lemma traverse_Raise (f : A -> outcome B) (l : list A) (a : A) (e : exn) :
  a ∈ l -> f a = Raise e -> exists e', traverse f l = Raise e'.
Proof.
  intros Hin Ha. induction l as [ | x l IH]; [ inversion Hin | ].
  simpl. destruct (f x) eqn:Ex; [ | eexists; reflexivity ].
  apply elem_of_cons in Hin as [-> | Hin]; [ congruence | ].
  destruct (IH Hin) as [e' ->]. eexists. reflexivity.
Qed.

End Traverse.

(** ** The merge, run *)

Section MergeRuns.

Context {S : services}.

Lemma merge_degraded params resp (w : world S) :
  ranked resp = None -> merge S params resp w = (Ok (Page 0 []), w).
Proof.
  intros H. unfold merge, bind, except_KeyError, getkey. rewrite H. reflexivity.
Qed.

Lemma merge_index_KeyError params resp pairs k (w : world S) :
  ranked resp = Some pairs ->
  solr_documents_from_field S "sha1sum_s_md" (map fst pairs) = Raise (KeyError k) ->
  merge S params resp w = (Ok (Page 0 []), w).
Proof.
  intros H Hs. unfold merge, bind, except_KeyError, getkey, lift.
  rewrite H. simpl. rewrite Hs. reflexivity.
Qed.

Lemma merge_run params resp pairs documents sid (w : world S) :
  ranked resp = Some pairs ->
  solr_documents_from_field S "sha1sum_s_md" (map fst pairs) = Ok documents ->
  params !! "sid" = Some sid ->
  merge S params resp w =
  (match traverse (confidence_of (dict pairs)) documents with
   | Ok ds =>
       match total_results resp with
       | Some n =>
           match traverse keyed_of ds with
           | Ok keyed => Ok (Page n (map snd (sort_desc keyed)))
           | Raise e => Raise e
           end
       | None => Raise (KeyError "total_results")
       end
   | Raise e => Raise e
   end, after_length_check sid documents pairs w).
Proof.
  intros H Hs Hsid.
  unfold merge, bind, except_KeyError, getkey, lift, after_length_check.
  rewrite H. simpl. rewrite Hs. simpl.
  destruct (Z.of_nat (length documents) <? Z.of_nat (length pairs))%Z.
  - unfold getitem, bind. rewrite Hsid. simpl.
    rewrite (mapM_traverse _ (confidence_of (dict pairs))) by apply set_confidence_run.
    destruct (traverse (confidence_of (dict pairs)) documents) as [ds | e]; [ | reflexivity ].
    destruct (total_results resp); [ | reflexivity ]. simpl.
    rewrite sorted_reverse_run.
    destruct (traverse keyed_of ds); reflexivity.
  - simpl.
    rewrite (mapM_traverse _ (confidence_of (dict pairs))) by apply set_confidence_run.
    destruct (traverse (confidence_of (dict pairs)) documents) as [ds | e]; [ | reflexivity ].
    destruct (total_results resp); [ | reflexivity ]. simpl.
    rewrite sorted_reverse_run.
    destruct (traverse keyed_of ds); reflexivity.
Qed.

Lemma get_results_sid params offset limit (w w1 : world S) o :
  get_results S params offset limit w = (o, w1) ->
  (exists sid, params !! "sid" = Some sid) \/ o = Raise (KeyError "sid").
Proof.
  unfold get_results, bind, getitem.
  destruct (params !! "sid") as [sid | ]; [ left; eauto | ].
  unfold raise. intros H. injection H as <- _. right. reflexivity.
Qed.

Lemma ask_engine_sid params resp (w w1 : world S) :
  ask_engine S params w = (Ok resp, w1) -> exists sid, params !! "sid" = Some sid.
Proof.
  unfold ask_engine. intros H.
  apply bind_Ok in H as (offset & w2 & _ & H).
  apply bind_Ok in H as (limit & w3 & _ & H).
  apply bind_Ok in H as (u & w4 & _ & H).
  apply get_results_sid in H as [H | H]; [ assumption | discriminate ].
Qed.

(** What a document that went through the loop and the sort looks like. *)
Lemma keyed_of_Ok x k y :
  keyed_of x = Ok (k, y) ->
  y = x /\ smqtk_iqr_confidence x = Some k.1 /\ first_sha (sha1sum_s_md x) = Ok k.2.
Proof.
  unfold keyed_of.
  destruct (smqtk_iqr_confidence x); [ | discriminate ].
  destruct (first_sha (sha1sum_s_md x)); [ | discriminate ].
  intros H. injection H as <- <-. auto.
Qed.

Lemma confidence_of_Ok cv d d' :
  confidence_of cv d = Ok d' ->
  exists sha c, first_sha (sha1sum_s_md d) = Ok sha /\ cv !! sha = Some c /\
                d' = Document (doc_id d) (sha1sum_s_md d) (Some c).
Proof.
  unfold confidence_of.
  destruct (first_sha (sha1sum_s_md d)) as [sha | ]; [ | discriminate ].
  destruct (cv !! sha) as [c | ] eqn:Hc; [ | discriminate ].
  intros H. injection H as <-. exists sha, c. repeat split; [ assumption ].
Qed.

Lemma confidence_of_keyed cv d d' :
  confidence_of cv d = Ok d' -> exists k, keyed_of d' = Ok (k, d').
Proof.
  intros H. apply confidence_of_Ok in H as (sha & c & Hsha & _ & ->).
  unfold keyed_of. simpl. rewrite Hsha. eauto.
Qed.

Lemma traverse_keyed cv documents ds :
  traverse (confidence_of cv) documents = Ok ds ->
  exists keyed, traverse keyed_of ds = Ok keyed /\ map snd keyed = ds.
Proof.
  intros H. apply traverse_Ok in H.
  induction H as [ | d d' l l' Hd _ (keyed & Hk & Hm)].
  - exists []. split; reflexivity.
  - apply confidence_of_keyed in Hd as (k & Hk').
    exists ((k, d') :: keyed). simpl. rewrite Hk', Hk, Hm. split; reflexivity.
Qed.

End MergeRuns.

Section MergeInversion.

Context {S : services}.

Lemma merge_Ok params resp sid (w w' : world S) pg :
  params !! "sid" = Some sid ->
  merge S params resp w = (Ok pg, w') ->
  pg = Page 0 [] \/
  exists pairs documents ds n keyed,
    ranked resp = Some pairs /\
    solr_documents_from_field S "sha1sum_s_md" (map fst pairs) = Ok documents /\
    traverse (confidence_of (dict pairs)) documents = Ok ds /\
    total_results resp = Some n /\
    traverse keyed_of ds = Ok keyed /\
    pg = Page n (map snd (sort_desc keyed)) /\
    w' = after_length_check sid documents pairs w.
Proof.
  intros Hsid H.
  destruct (ranked resp) as [pairs | ] eqn:Hr.
  2:{ rewrite merge_degraded in H by assumption. injection H as <- _. left. reflexivity. }
  destruct (solr_documents_from_field S "sha1sum_s_md" (map fst pairs))
    as [documents | e] eqn:Hs.
  - rewrite (merge_run _ _ _ _ _ _ Hr Hs Hsid) in H.
    destruct (traverse (confidence_of (dict pairs)) documents) as [ds | ] eqn:Hd;
      [ | discriminate ].
    destruct (total_results resp) as [n | ] eqn:Hn; [ | discriminate ].
    destruct (traverse keyed_of ds) as [keyed | ] eqn:Hk; [ | discriminate ].
    injection H as <- <-. right.
    exists pairs, documents, ds, n, keyed. repeat split; assumption.
  - destruct e.
    + rewrite (merge_index_KeyError _ _ _ _ _ Hr Hs) in H. injection H as <- _.
      left. reflexivity.
    + exfalso. revert H. unfold merge, bind, except_KeyError, getkey, lift.
      rewrite Hr. simpl. rewrite Hs. discriminate.
    + exfalso. revert H. unfold merge, bind, except_KeyError, getkey, lift.
      rewrite Hr. simpl. rewrite Hs. discriminate.
    + exfalso. revert H. unfold merge, bind, except_KeyError, getkey, lift.
      rewrite Hr. simpl. rewrite Hs. discriminate.
Qed.

Lemma results_Ok params (w w' : world S) pg :
  results S params w = (Ok pg, w') ->
  exists resp w1 sid,
    ask_engine S params w = (Ok resp, w1) /\
    params !! "sid" = Some sid /\
    merge S params resp w1 = (Ok pg, w').
Proof.
  unfold results. intros H.
  apply bind_Ok in H as (resp & w1 & Ha & Hm).
  destruct (ask_engine_sid _ _ _ _ Ha) as (sid & Hsid).
  exists resp, w1, sid. auto.
Qed.

End MergeInversion.

(** ** The sort invariant *)

(** C2. In the page that [results] returns, a document that comes before
    another one has a greater confidence, or the same confidence and a
    representative checksum that is not smaller: the documents are sorted
    by decreasing confidence, then by decreasing checksum. *)
Theorem results_sorted_by_confidence_then_checksum
    (S : services) params (w w' : world S) pg (i j : nat) (d1 d2 : document) :
  results S params w = (Ok pg, w') ->
  (i < j)%nat ->
  docs pg !! i = Some d1 ->
  docs pg !! j = Some d2 ->
  exists c1 s1 c2 s2,
    smqtk_iqr_confidence d1 = Some c1 /\ first_sha (sha1sum_s_md d1) = Ok s1 /\
    smqtk_iqr_confidence d2 = Some c2 /\ first_sha (sha1sum_s_md d2) = Ok s2 /\
    ((c2 < c1)%Q \/ ((c1 == c2)%Q /\ String.leb s2 s1 = true)).
Proof.
  intros H Hij H1 H2.
  apply results_Ok in H as (resp & w1 & sid & _ & Hsid & Hm).
  apply (merge_Ok _ _ _ _ _ _ Hsid) in Hm
    as [-> | (pairs & documents & ds & n & keyed & _ & _ & _ & _ & Hk & -> & _)].
  { simpl in H1. rewrite lookup_nil in H1. discriminate. }
  simpl in H1, H2.
  rewrite list_lookup_fmap in H1, H2.
  destruct (sort_desc keyed !! i) as [[k1 x1] | ] eqn:E1; [ | discriminate ].
  destruct (sort_desc keyed !! j) as [[k2 x2] | ] eqn:E2; [ | discriminate ].
  simpl in H1, H2. injection H1 as ->. injection H2 as ->.
  assert (Hin : forall k x, (k, x) ∈ sort_desc keyed -> keyed_of x = Ok (k, x)).
  { intros k x Hx. rewrite sort_desc_Permutation in Hx.
    apply traverse_Ok in Hk.
    clear -Hk Hx. induction Hk as [ | a b l l' Hab _ IH]; [ inversion Hx | ].
    apply elem_of_cons in Hx as [<- | Hx]; [ | apply IH; assumption ].
    destruct (keyed_of_Ok _ _ _ Hab) as (-> & _). assumption. }
  pose proof (Hin _ _ (list_elem_of_lookup_2 _ _ _ E1)) as K1.
  pose proof (Hin _ _ (list_elem_of_lookup_2 _ _ _ E2)) as K2.
  apply keyed_of_Ok in K1 as (_ & C1 & F1).
  apply keyed_of_Ok in K2 as (_ & C2 & F2).
  exists k1.1, k1.2, k2.1, k2.2. repeat split; try assumption.
  pose proof (StronglySorted_lookup key_ge _ i j _ _ (sort_desc_sorted keyed) Hij E1 E2) as Hge.
  unfold key_ge in Hge. simpl in Hge. apply key_lt_false in Hge. exact Hge.
Qed.

(** ** The mapping from checksum to confidence *)

Lemma dict_snoc (pairs : list (string * Q)) k v :
  dict (pairs ++ [(k, v)]) = <[k := v]> (dict pairs).
Proof. unfold dict. rewrite foldl_app. reflexivity. Qed.

Lemma dict_domain (pairs : list (string * Q)) (k : string) :
  is_Some (dict pairs !! k) <-> k ∈ pairs.*1.
Proof.
  induction pairs as [ | [k' v'] pairs IH] using rev_ind.
  - unfold dict. simpl. rewrite lookup_empty. split.
    + intros [x Hx]. discriminate.
    + intros H. inversion H.
  - rewrite dict_snoc, fmap_app, elem_of_app. simpl.
    rewrite list_elem_of_singleton.
    destruct (decide (k' = k)) as [-> | Hne].
    + rewrite lookup_insert_eq. split; [ right; reflexivity | eauto ].
    + rewrite lookup_insert_ne by assumption. rewrite IH.
      split; [ left; assumption | ]. intros [H | H]; [ assumption | congruence ].
Qed.

(** C7. [dict(resp['results'])] is defined for every list of pairs, a
    checksum has a confidence in it exactly when it occurs in the list, and
    when it occurs several times the confidence kept is that of its last
    occurrence. *)
Theorem dict_last_write_wins (before after : list (string * Q)) (k : string) (v : Q) :
  k ∉ after.*1 ->
  dict (before ++ (k, v) :: after) !! k = Some v /\
  (forall k', is_Some (dict (before ++ (k, v) :: after) !! k')
              <-> k' ∈ (before ++ (k, v) :: after).*1).
Proof.
  intros Hk. split; [ | intros k'; apply dict_domain ].
  induction after as [ | [k' v'] after IH] using rev_ind.
  - rewrite dict_snoc. apply lookup_insert_eq.
  - rewrite fmap_app, not_elem_of_app in Hk. destruct Hk as [Hk Hk'].
    simpl in Hk'. rewrite list_elem_of_singleton in Hk'.
    change (before ++ (k, v) :: after ++ [(k', v')])
      with (before ++ ((k, v) :: after) ++ [(k', v')]).
    rewrite app_assoc, dict_snoc.
    rewrite lookup_insert_ne by congruence. apply IH. assumption.
Qed.

Lemma dict_last_write_wins_witness :
  dict ([("a1", 1 # 10)] ++ ("a1", 9 # 10) :: [("a2", 1 # 2)]) !! "a1" = Some (9 # 10) /\
  (forall k', is_Some (dict ([("a1", 1 # 10)] ++ ("a1", 9 # 10) :: [("a2", 1 # 2)]) !! k')
              <-> k' ∈ ([("a1", 1 # 10)] ++ ("a1", 9 # 10) :: [("a2", 1 # 2)]).*1).
Proof.
  apply (dict_last_write_wins [("a1", 1 # 10)] [("a2", 1 # 2)] "a1" (9 # 10)).
  simpl. rewrite list_elem_of_singleton. discriminate.
Defined.

(** ** The degraded page *)

(** C5. When the answer of the engine to [get_results] has no 'results'
    key, [results] returns the page with no document and a count of zero;
    nothing is raised. *)
Theorem results_degraded_without_ranking
    (S : services) params (w w1 : world S) (resp : payload) :
  ask_engine S params w = (Ok resp, w1) ->
  ranked resp = None ->
  results S params w = (Ok (Page 0 []), w1).
Proof.
  intros Ha Hr. unfold results.
  rewrite (bind_run _ _ _ _ _ Ha). apply merge_degraded. assumption.
Qed.

(** ** The example of the specification *)

(** C6, as the code has it. With the ranking [(a1, 0.9); (a2, 0.9);
    (a3, 0.1)], a1 resolved to a document with the checksum a1, a2 to a
    document with the checksums [a2; a9] and a3 to nothing, in whichever
    order the index lists the two documents, the page has the count given
    by the engine and the documents of a2 then a1 (equal confidences, the
    greater checksum first), and one line is logged for the session. *)
Theorem example_page_a2_before_a1
    (S : services) params (w w1 : world S) (resp : payload) (n : Z) documents :
  ask_engine S params w = (Ok resp, w1) ->
  ranked resp = Some ex_ranked ->
  total_results resp = Some n ->
  solr_documents_from_field S "sha1sum_s_md" ["a1"; "a2"; "a3"] = Ok documents ->
  documents = [doc_a1; doc_a2] \/ documents = [doc_a2; doc_a1] ->
  exists sid,
    params !! "sid" = Some sid /\
    results S params w =
      (Ok (Page n [scored doc_a2 (9 # 10); scored doc_a1 (9 # 10)]),
       World (engine_state w1) (items w1) (logged w1 ++ [no_document_line sid]) (sent w1)).
Proof.
  intros Ha Hr Hn Hs Hd.
  destruct (ask_engine_sid _ _ _ _ Ha) as (sid & Hsid).
  exists sid. split; [ assumption | ].
  unfold results. rewrite (bind_run _ _ _ _ _ Ha).
  rewrite (merge_run params resp ex_ranked documents sid w1 Hr Hs Hsid).
  rewrite Hn.
  destruct Hd as [-> | ->]; vm_compute; reflexivity.
Qed.

Lemma example_page_a2_before_a1_witness :
  exists sid,
    ex_params !! "sid" = Some sid /\
    results (reference ex_answer (Ok [doc_a1; doc_a2])) ex_params
            (fresh ex_answer (Ok [doc_a1; doc_a2]) []) =
      (Ok (Page 3 [scored doc_a2 (9 # 10); scored doc_a1 (9 # 10)]),
       @World (reference ex_answer (Ok [doc_a1; doc_a2])) ["s1"] []
              ([] ++ [no_document_line sid])
              [PostSession (VStr "s1"); GetResults "s1" 0 20]).
Proof.
  apply (example_page_a2_before_a1 (reference ex_answer (Ok [doc_a1; doc_a2]))
           ex_params (fresh ex_answer (Ok [doc_a1; doc_a2]) [])
           (@World (reference ex_answer (Ok [doc_a1; doc_a2])) ["s1"] [] []
              [PostSession (VStr "s1"); GetResults "s1" 0 20])
           ex_answer 3 [doc_a1; doc_a2]).
  - vm_compute. reflexivity.
  - reflexivity.
  - reflexivity.
  - reflexivity.
  - left. reflexivity.
Defined.

(** The page of the example is not [a1; a2]. *)
Lemma example_page_a1_before_a2_refuted :
  fst (results (reference ex_answer (Ok [doc_a1; doc_a2])) ex_params
               (fresh ex_answer (Ok [doc_a1; doc_a2]) []))
  <> Ok (Page 3 [scored doc_a1 (9 # 10); scored doc_a2 (9 # 10)]).
Proof. vm_compute. intros H. discriminate H. Qed.

Lemma results_degraded_without_ranking_witness :
  results (reference ex_answer_unranked (Ok [])) ex_params
          (fresh ex_answer_unranked (Ok []) []) =
  (Ok (Page 0 []),
   @World (reference ex_answer_unranked (Ok [])) ["s1"] [] []
          [PostSession (VStr "s1"); GetResults "s1" 0 20]).
Proof.
  apply (results_degraded_without_ranking
           (reference ex_answer_unranked (Ok [])) ex_params
           (fresh ex_answer_unranked (Ok []) []) _
           ex_answer_unranked).
  - vm_compute. reflexivity.
  - reflexivity.
Defined.

Lemma results_sorted_by_confidence_then_checksum_witness :
  exists c1 s1 c2 s2,
    smqtk_iqr_confidence (scored doc_a2 (9 # 10)) = Some c1 /\
    first_sha (sha1sum_s_md (scored doc_a2 (9 # 10))) = Ok s1 /\
    smqtk_iqr_confidence (scored doc_a1 (9 # 10)) = Some c2 /\
    first_sha (sha1sum_s_md (scored doc_a1 (9 # 10))) = Ok s2 /\
    ((c2 < c1)%Q \/ ((c1 == c2)%Q /\ String.leb s2 s1 = true)).
Proof.
  apply (results_sorted_by_confidence_then_checksum
           (reference ex_answer (Ok [doc_a1; doc_a2])) ex_params
           (fresh ex_answer (Ok [doc_a1; doc_a2]) [])
           (@World (reference ex_answer (Ok [doc_a1; doc_a2])) ["s1"] []
              [no_document_line "s1"]
              [PostSession (VStr "s1"); GetResults "s1" 0 20])
           (Page 3 [scored doc_a2 (9 # 10); scored doc_a1 (9 # 10)])
           0%nat 1%nat).
  - vm_compute. reflexivity.
  - lia.
  - reflexivity.
  - reflexivity.
Defined.

(** ** Documents without a confidence *)

(** A document whose checksum the engine did not rank makes [results]
    raise, and nothing is logged for it. *)
Lemma orphan_document_fails_the_request :
  fst (results (reference ex_answer_one (Ok [ex_orphan])) ex_params
               (fresh ex_answer_one (Ok [ex_orphan]) []))
  = Raise (KeyError "zz") /\
  logged (snd (results (reference ex_answer_one (Ok [ex_orphan])) ex_params
                       (fresh ex_answer_one (Ok [ex_orphan]) []))) = [].
Proof. split; vm_compute; reflexivity. Qed.

(** C1, as the code has it. Once the engine has answered with a ranking
    and the index with documents: a document whose representative checksum
    has no entry in the mapping makes the request fail, no page is
    returned; so a returned page holds every resolved document, each with
    the confidence the mapping has for its representative checksum; and the
    only diagnostic is one line that names the session, written exactly
    when there are fewer documents than ranked entries. *)
Theorem results_without_confidence_fail
    (S : services) params (w w1 : world S) (resp : payload) pairs documents :
  ask_engine S params w = (Ok resp, w1) ->
  ranked resp = Some pairs ->
  solr_documents_from_field S "sha1sum_s_md" (map fst pairs) = Ok documents ->
  ((exists d sha, d ∈ documents /\ first_sha (sha1sum_s_md d) = Ok sha /\
                  dict pairs !! sha = None) ->
   exists e, fst (results S params w) = Raise e) /\
  (forall pg, fst (results S params w) = Ok pg ->
     length (docs pg) = length documents /\
     forall d, d ∈ docs pg ->
       exists sha c, first_sha (sha1sum_s_md d) = Ok sha /\
                     dict pairs !! sha = Some c /\
                     smqtk_iqr_confidence d = Some c) /\
  (exists sid, params !! "sid" = Some sid /\
     logged (snd (results S params w)) =
     logged w1 ++
       (if (Z.of_nat (length documents) <? Z.of_nat (length pairs))%Z
        then [no_document_line sid] else [])).
Proof.
  intros Ha Hr Hs.
  destruct (ask_engine_sid _ _ _ _ Ha) as (sid & Hsid).
  unfold results. rewrite (bind_run _ _ _ _ _ Ha).
  rewrite (merge_run params resp pairs documents sid w1 Hr Hs Hsid).
  simpl. split; [ | split ].
  - intros (d & sha & Hd & Hsha & Hnone).
    assert (Hc : confidence_of (dict pairs) d = Raise (KeyError sha)).
    { unfold confidence_of. rewrite Hsha, Hnone. reflexivity. }
    destruct (traverse_Raise _ _ _ _ Hd Hc) as (e' & ->). eauto.
  - intros pg Hpg.
    destruct (traverse (confidence_of (dict pairs)) documents) as [ds | ] eqn:Hds;
      [ | discriminate ].
    destruct (total_results resp) as [n | ]; [ | discriminate ].
    destruct (traverse_keyed _ _ _ Hds) as (keyed & Hk & Hm).
    rewrite Hk in Hpg. injection Hpg as <-. simpl.
    apply traverse_Ok in Hds.
    assert (Hp : map snd (sort_desc keyed) ≡ₚ ds).
    { rewrite <- Hm. apply fmap_Permutation. apply sort_desc_Permutation. }
    split.
    + rewrite Hp. symmetry. eapply Forall2_length. eassumption.
    + intros d Hd. rewrite Hp in Hd.
      clear -Hds Hd. induction Hds as [ | a b l l' Hab _ IH]; [ inversion Hd | ].
      apply elem_of_cons in Hd as [-> | Hd]; [ | apply IH; assumption ].
      apply confidence_of_Ok in Hab as (sha & c & Hsha & Hc & ->).
      exists sha, c. simpl. auto.
  - exists sid. split; [ assumption | ].
    unfold after_length_check.
    destruct (Z.of_nat (length documents) <? Z.of_nat (length pairs))%Z; simpl.
    + reflexivity.
    + rewrite app_nil_r. reflexivity.
Qed.

Lemma results_without_confidence_fail_witness :
  ((exists d sha, d ∈ [ex_orphan] /\ first_sha (sha1sum_s_md d) = Ok sha /\
                  dict [("a1", 9 # 10)%Q] !! sha = None) ->
   exists e, fst (results (reference ex_answer_one (Ok [ex_orphan])) ex_params
                          (fresh ex_answer_one (Ok [ex_orphan]) [])) = Raise e) /\
  (forall pg, fst (results (reference ex_answer_one (Ok [ex_orphan])) ex_params
                           (fresh ex_answer_one (Ok [ex_orphan]) [])) = Ok pg ->
     length (docs pg) = length [ex_orphan] /\
     forall d, d ∈ docs pg ->
       exists sha c, first_sha (sha1sum_s_md d) = Ok sha /\
                     dict [("a1", 9 # 10)%Q] !! sha = Some c /\
                     smqtk_iqr_confidence d = Some c) /\
  (exists sid, ex_params !! "sid" = Some sid /\
     logged (snd (results (reference ex_answer_one (Ok [ex_orphan])) ex_params
                          (fresh ex_answer_one (Ok [ex_orphan]) []))) =
     [] ++
       (if (Z.of_nat (length [ex_orphan]) <? Z.of_nat (length [("a1", 9 # 10)%Q]))%Z
        then [no_document_line sid] else [])).
Proof.
  apply (results_without_confidence_fail
           (reference ex_answer_one (Ok [ex_orphan])) ex_params
           (fresh ex_answer_one (Ok [ex_orphan]) [])
           (@World (reference ex_answer_one (Ok [ex_orphan])) ["s1"] [] []
              [PostSession (VStr "s1"); GetResults "s1" 0 20])
           ex_answer_one [("a1", 9 # 10)%Q] [ex_orphan]).
  - vm_compute. reflexivity.
  - reflexivity.
  - reflexivity.
Defined.

(** ** The calls made on the engine *)

Section Calls.

Context {S : services}.

Lemma calls_app (w w' : world S) new : sent w' = sent w ++ new -> calls w w' = new.
Proof. unfold calls. intros ->. apply drop_app_length. Qed.

Lemma adds_ret {A} P (a : A) : adds_calls (S := S) P (ret a).
Proof. intros w. exists []. simpl. rewrite app_nil_r. auto. Qed.

Lemma adds_raise {A} P e : adds_calls (S := S) (A := A) P (raise e).
Proof. intros w. exists []. simpl. rewrite app_nil_r. auto. Qed.

Lemma adds_getitem {V} P (d : gmap string V) k : adds_calls (S := S) P (getitem d k).
Proof. unfold getitem. destruct (d !! k); [ apply adds_ret | apply adds_raise ]. Qed.

Lemma adds_findOne P sid : adds_calls (S := S) P (findOne sid).
Proof. intros w. exists []. simpl. rewrite app_nil_r. auto. Qed.

Lemma adds_json P r : adds_calls (S := S) P (json r).
Proof. unfold json. destruct (body r); [ apply adds_ret | apply adds_raise ]. Qed.

Lemma adds_http P rq : P rq -> adds_calls (S := S) P (http rq).
Proof.
  intros HP w. exists [rq]. unfold http.
  destruct (serve S (engine_state w) rq) as [e r]. simpl. auto.
Qed.

Lemma adds_bind {A B} P (m : M S A) (f : A -> M S B) :
  adds_calls P m -> (forall a, adds_calls P (f a)) -> adds_calls P (bind m f).
Proof.
  intros Hm Hf w. unfold bind.
  destruct (Hm w) as (new & Hnew & HP).
  destruct (m w) as [[a | e] w1]; simpl in Hnew.
  - destruct (Hf a w1) as (new' & Hnew' & HP').
    exists (new ++ new'). rewrite Hnew', Hnew, app_assoc.
    split; [ reflexivity | ]. apply Forall_app. auto.
  - exists new. simpl. auto.
Qed.

Lemma adds_refine params : adds_calls (S := S) not_a_fetch (_refine S params).
Proof.
  unfold _refine.
  repeat first
    [ apply adds_bind; [ | intros ? ]
    | apply adds_getitem
    | apply adds_json
    | apply adds_http; exact I ].
Qed.

Lemma adds_sid_exists params sid : adds_calls (S := S) not_a_fetch (sid_exists S params sid).
Proof.
  unfold sid_exists.
  repeat first
    [ apply adds_bind; [ | intros ? ]
    | apply adds_getitem
    | apply adds_ret
    | apply adds_http; exact I ].
Qed.

Lemma adds_reconcile params : adds_calls (S := S) not_a_fetch (reconcile S params).
Proof.
  unfold reconcile.
  apply adds_bind; [ apply adds_getitem | intros sid ].
  apply adds_bind; [ apply adds_sid_exists | intros live ].
  destruct (negb live); [ | apply adds_ret ].
  apply adds_bind; [ apply adds_getitem | intros sid' ].
  apply adds_bind; [ apply adds_findOne | intros [it | ] ]; [ | apply adds_ret ].
  repeat first
    [ apply adds_refine
    | apply adds_getitem
    | apply adds_ret
    | apply adds_bind; [ | intros ? ] ].
Qed.

Lemma http_run rq (w : world S) e r :
  serve S (engine_state w) rq = (e, r) ->
  http rq w = (r, World e (items w) (logged w) (sent w ++ [rq])).
Proof. unfold http. intros ->. reflexivity. Qed.

Lemma merge_sent params resp (w : world S) :
  sent (snd (merge S params resp w)) = sent w.
Proof.
  unfold merge, bind, except_KeyError, getkey, lift.
  destruct (ranked resp) as [pairs | ]; simpl; [ | reflexivity ].
  destruct (solr_documents_from_field S "sha1sum_s_md" (map fst pairs))
    as [documents | []]; simpl; try reflexivity.
  assert (Hrest : forall w' : world S,
    sent (snd (match mapM (set_confidence S (dict pairs)) documents w' with
               | (Ok a, w'0) =>
                   match getkey (total_results resp) "total_results" w'0 with
                   | (Ok a0, w'1) =>
                       match sorted_reverse S a w'1 with
                       | (Ok a1, w'2) => ret (Page a0 a1) w'2
                       | (Raise e, w'2) => (Raise e, w'2)
                       end
                   | (Raise e, w'1) => (Raise e, w'1)
                   end
               | (Raise e, w'0) => (Raise e, w'0)
               end)) = sent w').
  { intros w'.
    rewrite (mapM_traverse _ (confidence_of (dict pairs))) by apply set_confidence_run.
    destruct (traverse (confidence_of (dict pairs)) documents) as [ds | e]; [ | reflexivity ].
    unfold getkey. destruct (total_results resp); [ | reflexivity ]. simpl.
    rewrite sorted_reverse_run.
    destruct (traverse keyed_of ds); reflexivity. }
  destruct (Z.of_nat (length documents) <? Z.of_nat (length pairs))%Z.
  - unfold getitem, bind. destruct (params !! "sid"); simpl; [ | reflexivity ].
    unfold getkey in Hrest. rewrite Hrest. reflexivity.
  - simpl. unfold getkey in Hrest. rewrite Hrest. reflexivity.
Qed.

Lemma results_sent params (w : world S) :
  sent (snd (results S params w)) = sent (snd (ask_engine S params w)).
Proof.
  unfold results, bind.
  destruct (ask_engine S params w) as [[resp | e] w1]; simpl; [ | reflexivity ].
  apply merge_sent.
Qed.

End Calls.

(** ** The reconciliation, run *)

Section ReconcileRuns.

Context {S : services}.

Lemma sid_exists_run params sid sid' (w : world S) e1 r1 :
  params !! "sid" = Some sid' ->
  serve S (engine_state w) (PostSession (VStr sid')) = (e1, Ok r1) ->
  sid_exists S params sid w = (Ok (negb (ok r1)), answered w e1 [PostSession (VStr sid')]).
Proof.
  intros Hsid Hs. unfold sid_exists.
  rewrite (bind_run _ _ _ _ _ (getitem_run _ _ _ _ Hsid)).
  rewrite (bind_run _ _ _ _ _ (http_run _ _ _ _ Hs)). reflexivity.
Qed.

Lemma refine_run params sid pos neg (w : world S) e1 r1 e2 o2 :
  params !! "sid" = Some sid ->
  params !! "pos_uuids" = Some pos ->
  params !! "neg_uuids" = Some neg ->
  serve S (engine_state w) (PostSession sid) = (e1, Ok r1) ->
  serve S e1 (PutRefine sid pos neg) = (e2, o2) ->
  _refine S params w =
  (match o2 with
   | Ok r => match body r with Some p => Ok p | None => Raise ValueError end
   | Raise e => Raise e
   end, answered w e2 [PostSession sid; PutRefine sid pos neg]).
Proof.
  intros Hsid Hpos Hneg H1 H2. unfold _refine.
  rewrite (bind_run _ _ _ _ _ (getitem_run _ _ _ _ Hsid)).
  rewrite (bind_run _ _ _ _ _ (http_run _ _ _ _ H1)).
  rewrite (bind_run _ _ _ _ _ (getitem_run _ _ _ _ Hsid)).
  rewrite (bind_run _ _ _ _ _ (getitem_run _ _ _ _ Hpos)).
  rewrite (bind_run _ _ _ _ _ (getitem_run _ _ _ _ Hneg)).
  unfold bind. rewrite (http_run (PutRefine sid pos neg) _ e2 o2) by exact H2.
  unfold answered. simpl. rewrite <- app_assoc. simpl.
  destruct o2 as [r | e]; [ | reflexivity ].
  unfold json. destruct (body r); reflexivity.
Qed.

Lemma reconcile_live params sid (w : world S) e1 r1 :
  params !! "sid" = Some sid ->
  serve S (engine_state w) (PostSession (VStr sid)) = (e1, Ok r1) ->
  ok r1 = false ->
  reconcile S params w = (Ok tt, answered w e1 [PostSession (VStr sid)]).
Proof.
  intros Hsid H1 Hok. unfold reconcile.
  rewrite (bind_run _ _ _ _ _ (getitem_run _ _ _ _ Hsid)).
  rewrite (bind_run _ _ _ _ _ (sid_exists_run _ _ _ _ _ _ Hsid H1)).
  rewrite Hok. reflexivity.
Qed.

Lemma reconcile_absent params sid (w : world S) e1 r1 :
  params !! "sid" = Some sid ->
  serve S (engine_state w) (PostSession (VStr sid)) = (e1, Ok r1) ->
  ok r1 = true ->
  reconcile S params w =
  match List.find (has_sid sid) (items w) with
  | Some it =>
      (pos_uuids <- getitem (meta it) "pos_uuids" ;;
       neg_uuids <- getitem (meta it) "neg_uuids" ;;
       _refine S {[ "sid" := VStr sid; "pos_uuids" := pos_uuids;
                    "neg_uuids" := neg_uuids ]} ;;;
       ret tt)%py (answered w e1 [PostSession (VStr sid)])
  | None => (Ok tt, answered w e1 [PostSession (VStr sid)])
  end.
Proof.
  intros Hsid H1 Hok. unfold reconcile.
  rewrite (bind_run _ _ _ _ _ (getitem_run _ _ _ _ Hsid)).
  rewrite (bind_run _ _ _ _ _ (sid_exists_run _ _ _ _ _ _ Hsid H1)).
  rewrite Hok. simpl.
  rewrite (bind_run _ _ _ _ _ (getitem_run _ _ _ _ Hsid)).
  unfold bind at 1. unfold findOne. simpl.
  destruct (List.find (has_sid sid) (items w)) as [it | ]; [ | reflexivity ].
  rewrite (bind_run _ _ _ _ _ (getitem_run _ _ _ _ Hsid)). reflexivity.
Qed.

Lemma reconcile_replay params sid (w : world S) e1 r1 it pos neg e2 r2 e3 o3 :
  params !! "sid" = Some sid ->
  serve S (engine_state w) (PostSession (VStr sid)) = (e1, Ok r1) ->
  ok r1 = true ->
  List.find (has_sid sid) (items w) = Some it ->
  meta it !! "pos_uuids" = Some pos ->
  meta it !! "neg_uuids" = Some neg ->
  serve S e1 (PostSession (VStr sid)) = (e2, Ok r2) ->
  serve S e2 (PutRefine (VStr sid) pos neg) = (e3, o3) ->
  reconcile S params w =
  (match o3 with
   | Ok r => match body r with Some p => Ok tt | None => Raise ValueError end
   | Raise e => Raise e
   end,
   answered w e3 [PostSession (VStr sid); PostSession (VStr sid);
                  PutRefine (VStr sid) pos neg]).
Proof.
  intros Hsid H1 Hok Hit Hpos Hneg H2 H3.
  rewrite (reconcile_absent _ _ _ _ _ Hsid H1 Hok), Hit.
  rewrite (bind_run _ _ _ _ _ (getitem_run _ _ _ _ Hpos)).
  rewrite (bind_run _ _ _ _ _ (getitem_run _ _ _ _ Hneg)).
  unfold bind.
  rewrite (refine_run _ (VStr sid) pos neg _ e2 r2 e3 o3); try done.
  unfold answered. simpl. rewrite <- app_assoc. simpl.
  destruct o3 as [r | e]; [ | reflexivity ].
  destruct (body r); reflexivity.
Qed.

Lemma reconcile_missing_pos params sid (w : world S) e1 r1 it :
  params !! "sid" = Some sid ->
  serve S (engine_state w) (PostSession (VStr sid)) = (e1, Ok r1) ->
  ok r1 = true ->
  List.find (has_sid sid) (items w) = Some it ->
  meta it !! "pos_uuids" = None ->
  reconcile S params w =
  (Raise (KeyError "pos_uuids"), answered w e1 [PostSession (VStr sid)]).
Proof.
  intros Hsid H1 Hok Hit Hpos.
  rewrite (reconcile_absent _ _ _ _ _ Hsid H1 Hok), Hit.
  unfold bind, getitem. rewrite Hpos. reflexivity.
Qed.

Lemma reconcile_missing_neg params sid (w : world S) e1 r1 it pos :
  params !! "sid" = Some sid ->
  serve S (engine_state w) (PostSession (VStr sid)) = (e1, Ok r1) ->
  ok r1 = true ->
  List.find (has_sid sid) (items w) = Some it ->
  meta it !! "pos_uuids" = Some pos ->
  meta it !! "neg_uuids" = None ->
  reconcile S params w =
  (Raise (KeyError "neg_uuids"), answered w e1 [PostSession (VStr sid)]).
Proof.
  intros Hsid H1 Hok Hit Hpos Hneg.
  rewrite (reconcile_absent _ _ _ _ _ Hsid H1 Hok), Hit.
  unfold bind, getitem. rewrite Hpos, Hneg. reflexivity.
Qed.

Lemma ask_engine_run params offset limit (w : world S) :
  int_param S params "offset" 0 = Ok offset ->
  int_param S params "limit" 20 = Ok limit ->
  ask_engine S params w =
  (reconcile S params ;;; get_results S params offset limit)%py w.
Proof.
  intros Ho Hl. unfold ask_engine. rewrite Ho, Hl. reflexivity.
Qed.

Lemma get_results_sent params sid offset limit (w : world S) :
  params !! "sid" = Some sid ->
  sent (snd (get_results S params offset limit w)) =
  sent w ++ [GetResults sid offset (offset + limit)].
Proof.
  intros Hsid. unfold get_results.
  rewrite (bind_run _ _ _ _ _ (getitem_run _ _ _ _ Hsid)).
  unfold bind, http.
  destruct (serve S (engine_state w) (GetResults sid offset (offset + limit)))
    as [e [r | x]]; simpl; [ | reflexivity ].
  unfold json. destruct (body r); reflexivity.
Qed.

End ReconcileRuns.

(** ** Refine and the durable record *)

Lemma http_Ok {S} rq (w w' : world S) r :
  http rq w = (Ok r, w') -> items w' = items w /\ sent w' = sent w ++ [rq].
Proof.
  unfold http. destruct (serve S (engine_state w) rq) as [e o].
  intros H. injection H as -> <-. auto.
Qed.

Lemma http_Ok_serve {S} rq (w w' : world S) r :
  http rq w = (Ok r, w') -> serve S (engine_state w) rq = (engine_state w', Ok r).
Proof.
  unfold http. destruct (serve S (engine_state w) rq) as [e o].
  intros H. injection H as -> <-. reflexivity.
Qed.

Lemma json_Ok_body {S} r (w w' : world S) p : json r w = (Ok p, w') -> body r = Some p.
Proof.
  unfold json. destruct (body r); unfold ret, raise; intros H; inversion H; reflexivity.
Qed.

Lemma json_Ok {S} r (w w' : world S) p : json r w = (Ok p, w') -> w' = w.
Proof.
  unfold json. destruct (body r); unfold ret, raise; intros H; inversion H; reflexivity.
Qed.

(** After a refine that the engine accepted, the stored record still has
    the sets it had before, not the submitted ones. *)
Lemma refine_does_not_write_through :
  (exists p, fst (_refine (reference ex_answer (Ok [])) ex_submitted
                          (fresh ex_answer (Ok []) ex_stored)) = Ok p) /\
  exists it,
    List.find (has_sid "s1")
      (items (snd (_refine (reference ex_answer (Ok [])) ex_submitted
                           (fresh ex_answer (Ok []) ex_stored)))) = Some it /\
    meta it !! "pos_uuids" = Some (VList ["p1"]) /\
    meta it !! "neg_uuids" = Some (VList []) /\
    ex_submitted !! "pos_uuids" = Some (VList ["p1"; "p2"]) /\
    ex_submitted !! "neg_uuids" = Some (VList ["n1"]).
Proof.
  split.
  - eexists. vm_compute. reflexivity.
  - eexists. split; [ vm_compute; reflexivity | ].
    repeat split; vm_compute; reflexivity.
Qed.

(** C3, as the code has it. A refine that succeeds has created the session
    again and sent the submitted sets to the engine, in one call each; what
    it returns is the decoded answer of the engine to that refine call;
    and it has left the items of the sessions folder as they were: the
    resource does not write the label sets to the durable record. *)
Theorem refine_forwards_and_keeps_the_store
    (S : services) params (w w' : world S) (p : payload) :
  _refine S params w = (Ok p, w') ->
  items w' = items w /\
  exists sid pos neg e1 r1 r2,
    params !! "sid" = Some sid /\
    params !! "pos_uuids" = Some pos /\
    params !! "neg_uuids" = Some neg /\
    serve S (engine_state w) (PostSession sid) = (e1, Ok r1) /\
    serve S e1 (PutRefine sid pos neg) = (engine_state w', Ok r2) /\
    body r2 = Some p /\
    calls w w' = [PostSession sid; PutRefine sid pos neg].
Proof.
  unfold _refine. intros H.
  apply bind_Ok in H as (sid & w1 & Hsid & H).
  apply getitem_Ok in Hsid as (Hsid & ->).
  apply bind_Ok in H as (r1 & w2 & H1 & H).
  pose proof (http_Ok_serve _ _ _ _ H1) as E1.
  apply http_Ok in H1 as (I1 & S1).
  apply bind_Ok in H as (sid' & w3 & Hsid' & H).
  apply getitem_Ok in Hsid' as (Hsid' & ->).
  apply bind_Ok in H as (pos & w4 & Hpos & H).
  apply getitem_Ok in Hpos as (Hpos & ->).
  apply bind_Ok in H as (neg & w5 & Hneg & H).
  apply getitem_Ok in Hneg as (Hneg & ->).
  apply bind_Ok in H as (r2 & w6 & H2 & H).
  pose proof (http_Ok_serve _ _ _ _ H2) as E2.
  apply http_Ok in H2 as (I2 & S2).
  pose proof (json_Ok_body _ _ _ _ H) as Hb.
  apply json_Ok in H as ->.
  assert (sid' = sid) as -> by congruence.
  split; [ congruence | ].
  exists sid, pos, neg, (engine_state w2), r1, r2.
  repeat split; try assumption.
  apply calls_app. rewrite S2, S1, <- app_assoc. reflexivity.
Qed.

Lemma refine_forwards_and_keeps_the_store_witness :
  items (@World (reference ex_answer (Ok [])) ["s1"] ex_stored []
           [PostSession (VStr "s1");
            PutRefine (VStr "s1") (VList ["p1"; "p2"]) (VList ["n1"])])
  = items (fresh ex_answer (Ok []) ex_stored) /\
  exists sid pos neg e1 r1 r2,
    ex_submitted !! "sid" = Some sid /\
    ex_submitted !! "pos_uuids" = Some pos /\
    ex_submitted !! "neg_uuids" = Some neg /\
    serve (reference ex_answer (Ok [])) [] (PostSession sid) = (e1, Ok r1) /\
    serve (reference ex_answer (Ok [])) e1 (PutRefine sid pos neg) = (["s1"], Ok r2) /\
    body r2 = Some (Payload None None "refined") /\
    calls (fresh ex_answer (Ok []) ex_stored)
          (@World (reference ex_answer (Ok [])) ["s1"] ex_stored []
             [PostSession (VStr "s1");
              PutRefine (VStr "s1") (VList ["p1"; "p2"]) (VList ["n1"])])
    = [PostSession sid; PutRefine sid pos neg].
Proof.
  apply (refine_forwards_and_keeps_the_store (reference ex_answer (Ok []))
           ex_submitted (fresh ex_answer (Ok []) ex_stored)
           (@World (reference ex_answer (Ok [])) ["s1"] ex_stored []
              [PostSession (VStr "s1");
               PutRefine (VStr "s1") (VList ["p1"; "p2"]) (VList ["n1"])])
           (Payload None None "refined")).
  vm_compute. reflexivity.
Defined.

(** ** Creating a session twice *)

Lemma ok_of_success (r : response) : 200 <= status_code r < 300 -> ok r = true.
Proof.
  intros H. unfold ok.
  destruct (Z.leb_spec 400 (status_code r)); [ lia | reflexivity ].
Qed.

Lemma ok_of_error (r : response) : 400 <= status_code r < 600 -> ok r = false.
Proof.
  intros H. unfold ok.
  destruct (Z.leb_spec 400 (status_code r)); [ | lia ].
  destruct (Z.ltb_spec (status_code r) 600); [ reflexivity | lia ].
Qed.

(** The engine refuses the second creation with a status outside 2xx, the
    session is live, and still the existence check answers false. *)
Lemma refusal_with_a_redirection_is_not_reported_live :
  sid_exists redirecting ex_params "s1" (@World redirecting [] [] [] []) =
  (Ok false, @World redirecting ["s1"] [] [] [PostSession (VStr "s1")]) /\
  serve redirecting ["s1"] (PostSession (VStr "s1")) = (["s1"], Ok (Response 302 None)) /\
  ~ (200 <= status_code (Response 302 None) < 300) /\
  sid_exists redirecting ex_params "s1"
             (@World redirecting ["s1"] [] [] [PostSession (VStr "s1")]) =
  (Ok false,
   @World redirecting ["s1"] [] [] [PostSession (VStr "s1"); PostSession (VStr "s1")]).
Proof.
  repeat split; try (vm_compute; reflexivity).
  simpl. lia.
Qed.

(** C8, as the code has it. Whenever the engine answers the two creations,
    the existence check made twice in a row for one id raises neither
    time; each time it returns true exactly when the answer has an error
    status, from 400 to 599, and false on any other status, 2xx as well as
    1xx and 3xx; so the second check reports the session as live when the
    engine refuses the creation with a 4xx or 5xx status.  The creation
    that [_refine] forces on a live session does not stop it from sending
    its refine, whatever the status. *)
Theorem sid_exists_is_true_on_error_statuses
    (S : services) (params : gmap string string) (sid : string) (w : world S)
    e1 r1 e2 r2 :
  params !! "sid" = Some sid ->
  serve S (engine_state w) (PostSession (VStr sid)) = (e1, Ok r1) ->
  serve S e1 (PostSession (VStr sid)) = (e2, Ok r2) ->
  exists b1 b2,
    sid_exists S params sid w = (Ok b1, answered w e1 [PostSession (VStr sid)]) /\
    sid_exists S params sid (answered w e1 [PostSession (VStr sid)]) =
      (Ok b2, answered (answered w e1 [PostSession (VStr sid)]) e2
                       [PostSession (VStr sid)]) /\
    (b1 = true <-> 400 <= status_code r1 < 600) /\
    (b2 = true <-> 400 <= status_code r2 < 600) /\
    (200 <= status_code r1 < 300 -> b1 = false) /\
    (forall refined pos neg,
       refined !! "sid" = Some (VStr sid) ->
       refined !! "pos_uuids" = Some pos ->
       refined !! "neg_uuids" = Some neg ->
       calls (answered w e1 [PostSession (VStr sid)])
             (snd (_refine S refined (answered w e1 [PostSession (VStr sid)]))) =
       [PostSession (VStr sid); PutRefine (VStr sid) pos neg]).
Proof.
  intros Hsid H1 H2.
  assert (Hrange : forall r, negb (ok r) = true <-> 400 <= status_code r < 600).
  { intros r. unfold ok. rewrite negb_involutive, andb_true_iff, Z.leb_le, Z.ltb_lt.
    reflexivity. }
  exists (negb (ok r1)), (negb (ok r2)).
  split; [ | split; [ | split; [ | split; [ | split ] ] ] ].
  - apply (sid_exists_run _ _ _ _ _ _ Hsid H1).
  - apply (sid_exists_run params sid sid (answered w e1 _) e2 r2 Hsid H2).
  - apply Hrange.
  - apply Hrange.
  - intros Hst. rewrite (ok_of_success _ Hst). reflexivity.
  - intros refined pos neg Bsid Bpos Bneg.
    destruct (serve S e2 (PutRefine (VStr sid) pos neg)) as [e3 o3] eqn:H3.
    rewrite (refine_run refined (VStr sid) pos neg (answered w e1 _) e2 r2 e3 o3
               Bsid Bpos Bneg H2 H3).
    simpl. apply calls_app. reflexivity.
Qed.

(** An engine that refuses with 409: false, then true. *)
Lemma sid_exists_is_true_on_error_statuses_witness :
  sid_exists (reference ex_answer (Ok [])) ex_params "s1" (fresh ex_answer (Ok []) []) =
  (Ok false,
   @World (reference ex_answer (Ok [])) ["s1"] [] [] [PostSession (VStr "s1")]) /\
  sid_exists (reference ex_answer (Ok [])) ex_params "s1"
             (@World (reference ex_answer (Ok [])) ["s1"] [] [] [PostSession (VStr "s1")]) =
  (Ok true,
   @World (reference ex_answer (Ok [])) ["s1"] [] []
          [PostSession (VStr "s1"); PostSession (VStr "s1")]).
Proof.
  destruct (sid_exists_is_true_on_error_statuses (reference ex_answer (Ok [])) ex_params
              "s1" (fresh ex_answer (Ok []) [])
              ["s1"] (Response 200 (Some (Payload None None "sid")))
              ["s1"] (Response 409 None) eq_refl eq_refl eq_refl)
    as (b1 & b2 & E1 & E2 & _ & R2 & R1 & _).
  rewrite (R1 ltac:(simpl; lia)) in E1.
  rewrite (proj2 R2 ltac:(simpl; lia)) in E2.
  split; [ exact E1 | exact E2 ].
Defined.

(** ** Replaying the stored labels *)

Section Replay.

Context {S : services}.

Lemma results_calls_after_reconcile params sid offset limit (w w1 : world S) new :
  params !! "sid" = Some sid ->
  int_param S params "offset" 0 = Ok offset ->
  int_param S params "limit" 20 = Ok limit ->
  reconcile S params w = (Ok tt, w1) ->
  sent w1 = sent w ++ new ->
  calls w (snd (results S params w)) = new ++ [GetResults sid offset (offset + limit)].
Proof.
  intros Hsid Ho Hl Hr Hs. apply calls_app.
  rewrite results_sent, (ask_engine_run _ _ _ _ Ho Hl).
  rewrite (bind_run _ _ _ _ _ Hr).
  rewrite (get_results_sent _ _ _ _ _ Hsid), Hs, app_assoc. reflexivity.
Qed.

Lemma results_calls_reconcile_raises params offset limit (w w1 : world S) e new :
  int_param S params "offset" 0 = Ok offset ->
  int_param S params "limit" 20 = Ok limit ->
  reconcile S params w = (Raise e, w1) ->
  sent w1 = sent w ++ new ->
  calls w (snd (results S params w)) = new.
Proof.
  intros Ho Hl Hr Hs. apply calls_app.
  rewrite results_sent, (ask_engine_run _ _ _ _ Ho Hl).
  rewrite (bind_raise _ _ _ _ _ Hr). exact Hs.
Qed.

Lemma results_reconcile_raises params offset limit (w w1 : world S) e :
  int_param S params "offset" 0 = Ok offset ->
  int_param S params "limit" 20 = Ok limit ->
  reconcile S params w = (Raise e, w1) ->
  results S params w = (Raise e, w1).
Proof.
  intros Ho Hl Hr. unfold results.
  apply bind_raise. rewrite (ask_engine_run _ _ _ _ Ho Hl).
  apply bind_raise. exact Hr.
Qed.

End Replay.

(** C4. When the engine did not know the session (the creation made by the
    existence check succeeded) and answers its calls: if the sessions
    folder has a record for the sid with stored positive and negative
    sets, [results] makes one refine call, with exactly those sets, before
    it fetches the ranking, and no other; if there is no record, it makes
    no refine call and fetches the ranking at once. *)
Theorem results_replays_stored_sets_once
    (S : services) params (w : world S) (sid : string) (offset limit : Z) e1 r1 :
  responsive S ->
  params !! "sid" = Some sid ->
  int_param S params "offset" 0 = Ok offset ->
  int_param S params "limit" 20 = Ok limit ->
  serve S (engine_state w) (PostSession (VStr sid)) = (e1, Ok r1) ->
  ok r1 = true ->
  (forall it pos neg,
     List.find (has_sid sid) (items w) = Some it ->
     meta it !! "pos_uuids" = Some pos ->
     meta it !! "neg_uuids" = Some neg ->
     exists tail,
       calls w (snd (results S params w)) =
       [PostSession (VStr sid); PostSession (VStr sid); PutRefine (VStr sid) pos neg]
       ++ tail /\
       (tail = [] \/ tail = [GetResults sid offset (offset + limit)])) /\
  (List.find (has_sid sid) (items w) = None ->
   calls w (snd (results S params w)) =
   [PostSession (VStr sid); GetResults sid offset (offset + limit)]).
Proof.
  intros Hresp Hsid Ho Hl H1 Hok. split.
  - intros it pos neg Hit Hpos Hneg.
    destruct (Hresp e1 (PostSession (VStr sid))) as (e2 & r2 & H2).
    destruct (Hresp e2 (PutRefine (VStr sid) pos neg)) as (e3 & r3 & H3).
    pose proof (reconcile_replay _ _ _ _ _ _ _ _ _ _ _ _
                  Hsid H1 Hok Hit Hpos Hneg H2 H3) as Hr.
    cbv beta iota in Hr.
    destruct (body r3) as [p | ].
    + exists [GetResults sid offset (offset + limit)]. split; [ | right; reflexivity ].
      apply (results_calls_after_reconcile _ _ _ _ _ _ _ Hsid Ho Hl Hr). reflexivity.
    + exists []. split; [ | left; reflexivity ]. rewrite app_nil_r.
      apply (results_calls_reconcile_raises _ _ _ _ _ _ _ Ho Hl Hr). reflexivity.
  - intros Hnone.
    pose proof (reconcile_absent _ _ _ _ _ Hsid H1 Hok) as Hr. rewrite Hnone in Hr.
    apply (results_calls_after_reconcile _ _ _ _ _ _ [PostSession (VStr sid)]
             Hsid Ho Hl Hr).
    reflexivity.
Qed.

Lemma reference_responsive answer found : responsive (reference answer found).
Proof.
  intros e rq. simpl. unfold reference_serve.
  destruct rq as [[s | l] | | ]; try (eexists _, _; reflexivity).
  destruct (existsb (String.eqb s) e); eexists _, _; reflexivity.
Qed.

Lemma results_replays_stored_sets_once_witness :
  (forall it pos neg,
     List.find (has_sid "s1") ex_stored = Some it ->
     meta it !! "pos_uuids" = Some pos ->
     meta it !! "neg_uuids" = Some neg ->
     exists tail,
       calls (fresh ex_answer (Ok [doc_a1; doc_a2]) ex_stored)
             (snd (results (reference ex_answer (Ok [doc_a1; doc_a2])) ex_params
                           (fresh ex_answer (Ok [doc_a1; doc_a2]) ex_stored))) =
       [PostSession (VStr "s1"); PostSession (VStr "s1"); PutRefine (VStr "s1") pos neg]
       ++ tail /\
       (tail = [] \/ tail = [GetResults "s1" 0 (0 + 20)])) /\
  (List.find (has_sid "s1") ex_stored = None ->
   calls (fresh ex_answer (Ok [doc_a1; doc_a2]) ex_stored)
         (snd (results (reference ex_answer (Ok [doc_a1; doc_a2])) ex_params
                       (fresh ex_answer (Ok [doc_a1; doc_a2]) ex_stored))) =
   [PostSession (VStr "s1"); GetResults "s1" 0 (0 + 20)]).
Proof.
  apply (results_replays_stored_sets_once (reference ex_answer (Ok [doc_a1; doc_a2]))
           ex_params (fresh ex_answer (Ok [doc_a1; doc_a2]) ex_stored) "s1" 0 20
           ["s1"] (Response 200 (Some (Payload None None "sid")))).
  - apply reference_responsive.
  - reflexivity.
  - reflexivity.
  - reflexivity.
  - reflexivity.
  - reflexivity.
Defined.

(** The calls of the replay on the stored record of the example. *)
Example replay_of_the_stored_record :
  calls (fresh ex_answer (Ok [doc_a1; doc_a2]) ex_stored)
        (snd (results (reference ex_answer (Ok [doc_a1; doc_a2])) ex_params
                      (fresh ex_answer (Ok [doc_a1; doc_a2]) ex_stored))) =
  [PostSession (VStr "s1"); PostSession (VStr "s1");
   PutRefine (VStr "s1") (VList ["p1"]) (VList []); GetResults "s1" 0 20].
Proof. vm_compute. reflexivity. Qed.

(** C9. When the engine did not know the session and the sessions folder
    has a record for the sid: whatever the stored sets are, empty ones
    included, the replay is made with them as soon as the engine answers
    the creation that [_refine] forces; and a record without 'pos_uuids'
    or without 'neg_uuids' makes the whole request fail with a [KeyError],
    after the first call and without any refine or fetch. *)
Theorem replay_is_unconditional
    (S : services) params (w : world S) (sid : string) (offset limit : Z) e1 r1 it :
  params !! "sid" = Some sid ->
  int_param S params "offset" 0 = Ok offset ->
  int_param S params "limit" 20 = Ok limit ->
  serve S (engine_state w) (PostSession (VStr sid)) = (e1, Ok r1) ->
  ok r1 = true ->
  List.find (has_sid sid) (items w) = Some it ->
  (forall pos neg e2 r2,
     meta it !! "pos_uuids" = Some pos ->
     meta it !! "neg_uuids" = Some neg ->
     serve S e1 (PostSession (VStr sid)) = (e2, Ok r2) ->
     take 3 (calls w (snd (results S params w))) =
     [PostSession (VStr sid); PostSession (VStr sid); PutRefine (VStr sid) pos neg]) /\
  (meta it !! "pos_uuids" = None ->
   results S params w =
   (Raise (KeyError "pos_uuids"), answered w e1 [PostSession (VStr sid)])) /\
  (forall pos,
     meta it !! "pos_uuids" = Some pos ->
     meta it !! "neg_uuids" = None ->
     results S params w =
     (Raise (KeyError "neg_uuids"), answered w e1 [PostSession (VStr sid)])).
Proof.
  intros Hsid Ho Hl H1 Hok Hit. split; [ | split ].
  - intros pos neg e2 r2 Hpos Hneg H2.
    destruct (serve S e2 (PutRefine (VStr sid) pos neg)) as [e3 o3] eqn:H3.
    pose proof (reconcile_replay _ _ _ _ _ _ _ _ _ _ _ _
                  Hsid H1 Hok Hit Hpos Hneg H2 H3) as Hr.
    destruct o3 as [r3 | x]; [ destruct (body r3) as [p | ] | ].
    + rewrite (results_calls_after_reconcile _ _ _ _ _ _ _ Hsid Ho Hl Hr eq_refl).
      reflexivity.
    + rewrite (results_calls_reconcile_raises _ _ _ _ _ _ _ Ho Hl Hr eq_refl).
      reflexivity.
    + rewrite (results_calls_reconcile_raises _ _ _ _ _ _ _ Ho Hl Hr eq_refl).
      reflexivity.
  - intros Hpos. apply (results_reconcile_raises _ _ _ _ _ _ Ho Hl).
    apply (reconcile_missing_pos _ _ _ _ _ _ Hsid H1 Hok Hit Hpos).
  - intros pos Hpos Hneg. apply (results_reconcile_raises _ _ _ _ _ _ Ho Hl).
    apply (reconcile_missing_neg _ _ _ _ _ _ _ Hsid H1 Hok Hit Hpos Hneg).
Qed.

(** The replay of a record with two empty sets. *)
Lemma replay_is_unconditional_witness :
  take 3 (calls (fresh ex_answer (Ok []) ex_stored_empty)
                (snd (results (reference ex_answer (Ok [])) ex_params
                              (fresh ex_answer (Ok []) ex_stored_empty)))) =
  [PostSession (VStr "s1"); PostSession (VStr "s1");
   PutRefine (VStr "s1") (VList []) (VList [])].
Proof.
  refine (proj1 (replay_is_unconditional (reference ex_answer (Ok []))
           ex_params (fresh ex_answer (Ok []) ex_stored_empty) "s1" 0 20
           ["s1"] (Response 200 (Some (Payload None None "sid")))
           (Item "s1" {[ "sid" := VStr "s1"; "pos_uuids" := VList [];
                         "neg_uuids" := VList [] ]})
           _ _ _ _ _ _)
          (VList []) (VList []) ["s1"] (Response 409 None) _ _ _);
    vm_compute; reflexivity.
Defined.

(** A record without label sets fails the request. *)
Example record_without_labels_fails :
  fst (results (reference ex_answer (Ok [])) ex_params
               (fresh ex_answer (Ok []) ex_stored_no_labels))
  = Raise (KeyError "pos_uuids").
Proof. vm_compute. reflexivity. Qed.

(** ** The window asked for *)

Lemma results_window_read (S : services) params (w : world S) :
  (params !! "offset" = None -> int_param S params "offset" 0 = Ok 0) /\
  (params !! "limit" = None -> int_param S params "limit" 20 = Ok 20) /\
  (forall sid i j,
     GetResults sid i j ∈ calls w (snd (results S params w)) ->
     exists offset limit,
       int_param S params "offset" 0 = Ok offset /\
       int_param S params "limit" 20 = Ok limit /\
       params !! "sid" = Some sid /\ i = offset /\ j = offset + limit) /\
  (forall offset limit w1,
     int_param S params "offset" 0 = Ok offset ->
     int_param S params "limit" 20 = Ok limit ->
     reconcile S params w = (Ok tt, w1) ->
     exists sid,
       params !! "sid" = Some sid /\
       calls w1 (snd (results S params w)) =
       [GetResults sid offset (offset + limit)]).
Proof.
  split; [ | split; [ | split ] ].
  - intros H. unfold int_param. rewrite H. reflexivity.
  - intros H. unfold int_param. rewrite H. reflexivity.
  - intros sid i j Hin.
    revert Hin.
    destruct (int_param S params "offset" 0) as [offset | ] eqn:Ho.
    2:{ unfold calls. rewrite results_sent. unfold ask_engine, bind, lift.
        rewrite Ho. simpl. rewrite drop_all. intros Hin. inversion Hin. }
    destruct (int_param S params "limit" 20) as [limit | ] eqn:Hl.
    2:{ unfold calls. rewrite results_sent. unfold ask_engine, bind, lift.
        rewrite Ho, Hl. simpl. rewrite drop_all. intros Hin. inversion Hin. }
    destruct (adds_reconcile params w) as (new & Hnew & Hfetch).
    destruct (reconcile S params w) as [[[] | e] w1] eqn:Hr; simpl in Hnew.
    + destruct (params !! "sid") as [sid' | ] eqn:Hsid.
      * rewrite (results_calls_after_reconcile _ _ _ _ _ _ _ Hsid Ho Hl Hr Hnew).
        intros Hin. apply elem_of_app in Hin as [Hin | Hin].
        -- rewrite Forall_forall in Hfetch. destruct (Hfetch _ Hin).
        -- apply list_elem_of_singleton in Hin. injection Hin as -> -> ->.
           exists offset, limit. auto.
      * unfold calls. rewrite results_sent, (ask_engine_run _ _ _ _ Ho Hl).
        rewrite (bind_run _ _ _ _ _ Hr). unfold get_results, bind, getitem.
        rewrite Hsid. simpl. rewrite Hnew, drop_app_length.
        intros Hin. rewrite Forall_forall in Hfetch. destruct (Hfetch _ Hin).
    + rewrite (results_calls_reconcile_raises _ _ _ _ _ _ _ Ho Hl Hr Hnew).
      intros Hin. rewrite Forall_forall in Hfetch. destruct (Hfetch _ Hin).
  - intros offset limit w1 Ho Hl Hr.
    destruct (params !! "sid") as [sid | ] eqn:Hsid.
    + exists sid. split; [ reflexivity | ]. apply calls_app.
      rewrite results_sent, (ask_engine_run _ _ _ _ Ho Hl).
      rewrite (bind_run _ _ _ _ _ Hr).
      apply (get_results_sent _ _ _ _ _ Hsid).
    + exfalso. revert Hr. unfold reconcile, bind, getitem. rewrite Hsid.
      discriminate.
Qed.

(** C10. The offset is read from 'offset' with [int], and is 0 without it;
    the limit is read from 'limit' with [int], and is 20 without it; every
    fetch that [results] makes asks for the window from [i = offset] to
    [j = offset + limit]; and the fetch is made as soon as the two
    parameters are read and the reconciliation has not raised. *)
Theorem results_asks_for_the_window (S : services) params (w : world S) :
  let offset_read :=
    match params !! "offset" with Some s => py_int S s | None => Ok 0 end in
  let limit_read :=
    match params !! "limit" with Some s => py_int S s | None => Ok 20 end in
  (forall sid i j,
     GetResults sid i j ∈ calls w (snd (results S params w)) ->
     exists offset limit,
       offset_read = Ok offset /\ limit_read = Ok limit /\
       params !! "sid" = Some sid /\ i = offset /\ j = offset + limit) /\
  (forall offset limit w1,
     offset_read = Ok offset ->
     limit_read = Ok limit ->
     reconcile S params w = (Ok tt, w1) ->
     exists sid,
       params !! "sid" = Some sid /\
       calls w1 (snd (results S params w)) =
       [GetResults sid offset (offset + limit)]).
Proof.
  intros offset_read limit_read.
  destruct (results_window_read S params w) as (_ & _ & Hfetch & Hmade).
  split; [ exact Hfetch | exact Hmade ].
Qed.

(** A window of seven results from the fifth on. *)
Lemma results_asks_for_the_window_witness :
  exists sid,
    ex_params_window !! "sid" = Some sid /\
    calls (@World ex_services ["s1"] [] [] [PostSession (VStr "s1")])
          (snd (results ex_services ex_params_window ex_world)) =
    [GetResults sid 5 (5 + 7)].
Proof.
  apply (proj2 (results_asks_for_the_window ex_services ex_params_window ex_world) 5 7
           (@World ex_services ["s1"] [] [] [PostSession (VStr "s1")]));
    vm_compute; reflexivity.
Defined.

(** ** What a run can change *)

Section Effects.

Context {S : services}.

Lemma quiet_ret {A} (a : A) : quiet (S := S) (ret a).
Proof. intros w. reflexivity. Qed.

Lemma quiet_raise {A} e : quiet (S := S) (A := A) (raise e).
Proof. intros w. reflexivity. Qed.

Lemma quiet_lift {A} (o : outcome A) : quiet (S := S) (lift o).
Proof. intros w. reflexivity. Qed.

Lemma quiet_getitem {V} (d : gmap string V) k : quiet (S := S) (getitem d k).
Proof. unfold getitem. destruct (d !! k); [ apply quiet_ret | apply quiet_raise ]. Qed.

Lemma quiet_getkey {V} (field : option V) k : quiet (S := S) (getkey field k).
Proof. unfold getkey. destruct field; [ apply quiet_ret | apply quiet_raise ]. Qed.

Lemma quiet_json r : quiet (S := S) (json r).
Proof. unfold json. destruct (body r); [ apply quiet_ret | apply quiet_raise ]. Qed.

Lemma quiet_findOne sid : quiet (S := S) (findOne sid).
Proof. intros w. reflexivity. Qed.

Lemma quiet_bind {A B} (m : M S A) (f : A -> M S B) :
  quiet m -> (forall a, quiet (f a)) -> quiet (bind m f).
Proof.
  intros Hm Hf w. unfold bind. specialize (Hm w).
  destruct (m w) as [[a | e] w1]; simpl in Hm; subst w1; [ apply Hf | reflexivity ].
Qed.

Lemma quiet_except {A} (m : M S A) : quiet m -> quiet (except_KeyError m).
Proof.
  intros Hm w. unfold except_KeyError. specialize (Hm w).
  destruct (m w) as [[a | []] w1]; simpl in *; assumption.
Qed.

Lemma quiet_mapM {A B} (f : A -> M S B) (l : list A) :
  (forall a, quiet (f a)) -> quiet (mapM f l).
Proof.
  intros Hf. induction l as [ | a l IH]; simpl; [ apply quiet_ret | ].
  apply quiet_bind; [ apply Hf | intros b ].
  apply quiet_bind; [ apply IH | intros bs; apply quiet_ret ].
Qed.

Lemma quiet_sorted_reverse documents : quiet (sorted_reverse S documents).
Proof. intros w. rewrite sorted_reverse_run. reflexivity. Qed.

Lemma quiet_set_confidence cv d : quiet (set_confidence S cv d).
Proof. intros w. rewrite set_confidence_run. reflexivity. Qed.

Lemma effects_quiet {A} P c l (m : M S A) : quiet m -> effects P c l m.
Proof.
  intros Hm w. rewrite (Hm w). split; [ reflexivity | split ].
  - exists []. rewrite app_nil_r. repeat split; [ constructor | simpl; lia ].
  - exists []. rewrite app_nil_r. split; [ reflexivity | simpl; lia ].
Qed.

Lemma effects_http (P : request -> Prop) rq c l :
  P rq -> (1 <= c)%nat -> effects (S := S) P c l (http rq).
Proof.
  intros HP Hc w. unfold http.
  destruct (serve S (engine_state w) rq) as [e r]. simpl.
  split; [ reflexivity | split ].
  - exists [rq]. repeat split; [ constructor; [ assumption | constructor ] | simpl; lia ].
  - exists []. rewrite app_nil_r. split; [ reflexivity | simpl; lia ].
Qed.

Lemma effects_logger_error P line c l :
  (1 <= l)%nat -> effects (S := S) P c l (logger_error line).
Proof.
  intros Hl w. simpl. split; [ reflexivity | split ].
  - exists []. rewrite app_nil_r. repeat split; [ constructor | simpl; lia ].
  - exists [line]. split; [ reflexivity | simpl; lia ].
Qed.

Lemma effects_bind {A B} P c1 l1 c2 l2 c l (m : M S A) (f : A -> M S B) :
  effects P c1 l1 m -> (forall a, effects P c2 l2 (f a)) ->
  (c1 + c2 <= c)%nat -> (l1 + l2 <= l)%nat ->
  effects P c l (bind m f).
Proof.
  intros Hm Hf Hc Hl w. unfold bind.
  destruct (Hm w) as (Hi & (new & Hs & HP & Hn) & (lines & Hg & Hk)).
  destruct (m w) as [[a | e] w1]; simpl in *.
  - destruct (Hf a w1) as (Hi' & (new' & Hs' & HP' & Hn') & (lines' & Hg' & Hk')).
    split; [ congruence | split ].
    + exists (new ++ new'). rewrite Hs', Hs, app_assoc.
      repeat split; [ apply Forall_app; auto | rewrite length_app; lia ].
    + exists (lines ++ lines'). rewrite Hg', Hg, app_assoc.
      split; [ reflexivity | rewrite length_app; lia ].
  - split; [ assumption | split ].
    + exists new. repeat split; [ assumption | assumption | lia ].
    + exists lines. split; [ assumption | lia ].
Qed.

Lemma effects_refine params : effects not_a_fetch 2 0 (_refine S params).
Proof.
  unfold _refine.
  apply (effects_bind _ 0 0 2 0); [ apply effects_quiet, quiet_getitem | intros sid | lia | lia ].
  apply (effects_bind _ 1 0 1 0); [ apply effects_http; [ exact I | lia ] | intros _ | lia | lia ].
  apply (effects_bind _ 0 0 1 0); [ apply effects_quiet, quiet_getitem | intros sid' | lia | lia ].
  apply (effects_bind _ 0 0 1 0); [ apply effects_quiet, quiet_getitem | intros pos | lia | lia ].
  apply (effects_bind _ 0 0 1 0); [ apply effects_quiet, quiet_getitem | intros neg | lia | lia ].
  apply (effects_bind _ 1 0 0 0); [ apply effects_http; [ exact I | lia ] | intros r | lia | lia ].
  apply effects_quiet, quiet_json.
Qed.

Lemma effects_sid_exists params sid : effects not_a_fetch 1 0 (sid_exists S params sid).
Proof.
  unfold sid_exists.
  apply (effects_bind _ 0 0 1 0); [ apply effects_quiet, quiet_getitem | intros sid' | lia | lia ].
  apply (effects_bind _ 1 0 0 0); [ apply effects_http; [ exact I | lia ] | intros r | lia | lia ].
  apply effects_quiet, quiet_ret.
Qed.

Lemma effects_reconcile params : effects not_a_fetch 3 0 (reconcile S params).
Proof.
  unfold reconcile.
  apply (effects_bind _ 0 0 3 0); [ apply effects_quiet, quiet_getitem | intros sid | lia | lia ].
  apply (effects_bind _ 1 0 2 0); [ apply effects_sid_exists | intros live | lia | lia ].
  destruct (negb live); [ | apply effects_quiet, quiet_ret ].
  apply (effects_bind _ 0 0 2 0); [ apply effects_quiet, quiet_getitem | intros sid' | lia | lia ].
  apply (effects_bind _ 0 0 2 0);
    [ apply effects_quiet, quiet_findOne | intros [it | ] | lia | lia ];
    [ | apply effects_quiet, quiet_ret ].
  apply (effects_bind _ 0 0 2 0); [ apply effects_quiet, quiet_getitem | intros sid'' | lia | lia ].
  apply (effects_bind _ 0 0 2 0); [ apply effects_quiet, quiet_getitem | intros pos | lia | lia ].
  apply (effects_bind _ 0 0 2 0); [ apply effects_quiet, quiet_getitem | intros neg | lia | lia ].
  apply (effects_bind _ 2 0 0 0); [ apply effects_refine | intros p | lia | lia ].
  apply effects_quiet, quiet_ret.
Qed.

Lemma effects_merge P params resp : effects P 0 1 (merge S params resp).
Proof.
  unfold merge.
  apply (effects_bind _ 0 0 0 1); [ | intros [documents | ] | lia | lia ].
  - apply effects_quiet, quiet_except, quiet_bind; [ apply quiet_getkey | intros pairs ].
    apply quiet_lift.
  - apply (effects_bind _ 0 0 0 1); [ apply effects_quiet, quiet_getkey | intros pairs | lia | lia ].
    apply (effects_bind _ 0 0 0 1); [ apply effects_quiet, quiet_getkey | intros pairs' | lia | lia ].
    apply (effects_bind _ 0 1 0 0); [ | intros _ | lia | lia ].
    + destruct (Z.of_nat (length documents) <? Z.of_nat (length pairs'))%Z;
        [ | apply effects_quiet, quiet_ret ].
      apply (effects_bind _ 0 0 0 1); [ apply effects_quiet, quiet_getitem | intros sid | lia | lia ].
      apply effects_logger_error. lia.
    + apply effects_quiet.
      apply quiet_bind; [ apply quiet_mapM; intros d; apply quiet_set_confidence | intros ds ].
      apply quiet_bind; [ apply quiet_getkey | intros total ].
      apply quiet_bind; [ apply quiet_sorted_reverse | intros sorted ].
      apply quiet_ret.
  - apply effects_quiet, quiet_ret.
Qed.

End Effects.

Section EffectsOfResults.

Context {S : services}.

Lemma effects_any_call {A} (P : request -> Prop) c l (m : M S A) :
  effects P c l m -> effects (fun _ => True) c l m.
Proof.
  intros Hm w. destruct (Hm w) as (Hi & (new & Hs & _ & Hn) & Hl).
  split; [ assumption | split; [ | assumption ] ].
  exists new. repeat split; [ assumption | | assumption ].
  apply Forall_forall. intros rq _. exact I.
Qed.

Lemma effects_get_results params offset limit :
  effects (fun _ => True) 1 0 (get_results S params offset limit).
Proof.
  unfold get_results.
  apply (effects_bind _ 0 0 1 0); [ apply effects_quiet, quiet_getitem | intros sid | lia | lia ].
  apply (effects_bind _ 1 0 0 0); [ apply effects_http; [ exact I | lia ] | intros r | lia | lia ].
  apply effects_quiet, quiet_json.
Qed.

Lemma effects_ask_engine params : effects (fun _ => True) 4 0 (ask_engine S params).
Proof.
  unfold ask_engine.
  apply (effects_bind _ 0 0 4 0); [ apply effects_quiet, quiet_lift | intros offset | lia | lia ].
  apply (effects_bind _ 0 0 4 0); [ apply effects_quiet, quiet_lift | intros limit | lia | lia ].
  apply (effects_bind _ 3 0 1 0);
    [ apply (effects_any_call not_a_fetch), effects_reconcile | intros _ | lia | lia ].
  apply effects_get_results.
Qed.

Lemma effects_results params : effects (fun _ => True) 4 1 (results S params).
Proof.
  unfold results.
  apply (effects_bind _ 4 0 0 1); [ apply effects_ask_engine | intros resp | lia | lia ].
  apply effects_merge.
Qed.

End EffectsOfResults.

(** X1. Neither [results] nor [_refine] writes to the items: whatever the
    parameters, the engine and the index do, and whether the call returns
    or raises, the stored records are those of before. *)
Theorem results_and_refine_keep_the_items
    (S : services) (params : gmap string string) (body : gmap string value) (w : world S) :
  items (snd (results S params w)) = items w /\
  items (snd (_refine S body w)) = items w.
Proof.
  split.
  - apply (effects_results params w).
  - apply (effects_refine body w).
Qed.

(** X2. One call of [results] makes at most four calls on the engine: at
    most three creations and refines, then at most one fetch, which is the
    last call; and it logs at most one line.  There is no retry. *)
Theorem results_makes_at_most_four_calls
    (S : services) (params : gmap string string) (w : world S) :
  exists before_fetch fetch,
    calls w (snd (results S params w)) = before_fetch ++ fetch /\
    Forall not_a_fetch before_fetch /\
    (length before_fetch <= 3)%nat /\
    (fetch = [] \/ exists sid i j, fetch = [GetResults sid i j]) /\
    (length (lines_logged w (snd (results S params w))) <= 1)%nat.
Proof.
  assert (Hlog : (length (lines_logged w (snd (results S params w))) <= 1)%nat).
  { destruct (effects_results params w) as (_ & _ & (lines & Hg & Hk)).
    unfold lines_logged. rewrite Hg, drop_app_length. exact Hk. }
  assert (Hnone : forall w' : world S, sent w' = sent w ->
            exists before_fetch fetch,
              drop (length (sent w)) (sent w') = before_fetch ++ fetch /\
              Forall not_a_fetch before_fetch /\ (length before_fetch <= 3)%nat /\
              (fetch = [] \/ exists sid i j, fetch = [GetResults sid i j])).
  { intros w' ->. exists [], []. rewrite drop_all.
    repeat split; [ constructor | simpl; lia | left; reflexivity ]. }
  cut (exists before_fetch fetch,
         calls w (snd (results S params w)) = before_fetch ++ fetch /\
         Forall not_a_fetch before_fetch /\ (length before_fetch <= 3)%nat /\
         (fetch = [] \/ exists sid i j, fetch = [GetResults sid i j])).
  { intros (b & f & H1 & H2 & H3 & H4). exists b, f. auto. }
  unfold calls. rewrite results_sent.
  destruct (int_param S params "offset" 0) as [offset | e] eqn:Ho.
  2:{ apply Hnone. unfold ask_engine, bind, lift. rewrite Ho. reflexivity. }
  destruct (int_param S params "limit" 20) as [limit | e] eqn:Hl.
  2:{ apply Hnone. unfold ask_engine, bind, lift. rewrite Ho, Hl. reflexivity. }
  rewrite (ask_engine_run _ _ _ _ Ho Hl).
  destruct (effects_reconcile params w) as (_ & (new & Hs & HP & Hn) & _).
  unfold bind at 1.
  destruct (reconcile S params w) as [[[] | e] w1]; simpl in Hs.
  - destruct (params !! "sid") as [sid | ] eqn:Hsid.
    + exists new, [GetResults sid offset (offset + limit)].
      rewrite (get_results_sent _ _ _ _ _ Hsid), Hs, <- app_assoc, drop_app_length.
      repeat split; try assumption. right. eauto.
    + exists new, []. unfold get_results, bind, getitem. rewrite Hsid. simpl.
      rewrite Hs, drop_app_length, app_nil_r.
      repeat split; try assumption. left. reflexivity.
  - exists new, []. simpl. rewrite Hs, drop_app_length, app_nil_r.
    repeat split; try assumption. left. reflexivity.
Qed.

(** ** Sessions that are live, engines that fail *)

(** X3. When the engine refuses the creation (the session is live),
    [results] does not look for the stored record and replays nothing: it
    makes the creation call and the fetch, nothing else. *)
Theorem live_session_is_not_replayed
    (S : services) params (w : world S) (sid : string) (offset limit : Z) e1 r1 :
  params !! "sid" = Some sid ->
  int_param S params "offset" 0 = Ok offset ->
  int_param S params "limit" 20 = Ok limit ->
  serve S (engine_state w) (PostSession (VStr sid)) = (e1, Ok r1) ->
  ok r1 = false ->
  calls w (snd (results S params w)) =
  [PostSession (VStr sid); GetResults sid offset (offset + limit)].
Proof.
  intros Hsid Ho Hl H1 Hok.
  apply (results_calls_after_reconcile _ _ _ _ _ _ [PostSession (VStr sid)] Hsid Ho Hl
           (reconcile_live _ _ _ _ _ Hsid H1 Hok)).
  reflexivity.
Qed.

Lemma live_session_is_not_replayed_witness :
  calls ex_world_live (snd (results ex_services ex_params ex_world_live)) =
  [PostSession (VStr "s1"); GetResults "s1" 0 (0 + 20)].
Proof.
  apply (live_session_is_not_replayed ex_services ex_params ex_world_live "s1" 0 20
           ["s1"] (Response 409 None)); reflexivity.
Defined.

(** X4. A failure of the engine is not turned into an empty page: when the
    creation call of the existence check cannot reach the engine, when the
    fetch cannot, or when the answer to the fetch is not JSON, [results]
    raises that error, right after the failed call. *)
Theorem engine_failures_are_raised
    (S : services) params (w : world S) (sid : string) (offset limit : Z) :
  params !! "sid" = Some sid ->
  int_param S params "offset" 0 = Ok offset ->
  int_param S params "limit" 20 = Ok limit ->
  (forall e1 x,
     serve S (engine_state w) (PostSession (VStr sid)) = (e1, Raise x) ->
     results S params w = (Raise x, answered w e1 [PostSession (VStr sid)])) /\
  (forall w1 e2 x,
     reconcile S params w = (Ok tt, w1) ->
     serve S (engine_state w1) (GetResults sid offset (offset + limit)) = (e2, Raise x) ->
     results S params w =
     (Raise x, answered w1 e2 [GetResults sid offset (offset + limit)])) /\
  (forall w1 e2 r,
     reconcile S params w = (Ok tt, w1) ->
     serve S (engine_state w1) (GetResults sid offset (offset + limit)) = (e2, Ok r) ->
     body r = None ->
     results S params w =
     (Raise ValueError, answered w1 e2 [GetResults sid offset (offset + limit)])).
Proof.
  intros Hsid Ho Hl. split; [ | split ].
  - intros e1 x H1. apply (results_reconcile_raises _ _ _ _ _ _ Ho Hl).
    unfold reconcile.
    rewrite (bind_run _ _ _ _ _ (getitem_run _ _ _ _ Hsid)).
    apply bind_raise. unfold sid_exists.
    rewrite (bind_run _ _ _ _ _ (getitem_run _ _ _ _ Hsid)).
    apply bind_raise. apply http_run. exact H1.
  - intros w1 e2 x Hr H2. unfold results. apply bind_raise.
    rewrite (ask_engine_run _ _ _ _ Ho Hl), (bind_run _ _ _ _ _ Hr).
    unfold get_results.
    rewrite (bind_run _ _ _ _ _ (getitem_run _ _ _ _ Hsid)).
    apply bind_raise. apply http_run. exact H2.
  - intros w1 e2 r Hr H2 Hb. unfold results. apply bind_raise.
    rewrite (ask_engine_run _ _ _ _ Ho Hl), (bind_run _ _ _ _ _ Hr).
    unfold get_results.
    rewrite (bind_run _ _ _ _ _ (getitem_run _ _ _ _ Hsid)).
    rewrite (bind_run _ _ _ _ _ (http_run _ _ _ _ H2)).
    unfold json. rewrite Hb. reflexivity.
Qed.

(** An engine out of reach, and a fetch answered with something that is
    not JSON. *)
Lemma engine_failures_are_raised_witness :
  results offline ex_params (@World offline tt [] [] []) =
  (Raise ConnectionError, @World offline tt [] [] [PostSession (VStr "s1")]) /\
  results garbled ex_params (@World garbled [] [] [] []) =
  (Raise ValueError,
   @World garbled ["s1"] [] [] [PostSession (VStr "s1"); GetResults "s1" 0 20]).
Proof.
  split.
  - apply (proj1 (engine_failures_are_raised offline ex_params
                    (@World offline tt [] [] []) "s1" 0 20 eq_refl eq_refl eq_refl)
             tt ConnectionError).
    reflexivity.
  - apply (proj2 (proj2 (engine_failures_are_raised garbled ex_params
                    (@World garbled [] [] [] []) "s1" 0 20 eq_refl eq_refl eq_refl))
             (@World garbled ["s1"] [] [] [PostSession (VStr "s1")]) ["s1"]
             (Response 200 None)).
    + vm_compute. reflexivity.
    + reflexivity.
    + reflexivity.
Defined.

(** X5. Of the errors of the index only a [KeyError] gives the empty page;
    any other error of [solr_documents_from_field] is raised by [results],
    and in both cases nothing is logged. *)
Theorem index_errors_other_than_KeyError_are_raised
    (S : services) params (w w1 : world S) (resp : payload) pairs (x : exn) :
  ask_engine S params w = (Ok resp, w1) ->
  ranked resp = Some pairs ->
  solr_documents_from_field S "sha1sum_s_md" (map fst pairs) = Raise x ->
  results S params w =
  (match x with
   | KeyError _ => Ok (Page 0 [])
   | _ => Raise x
   end, w1).
Proof.
  intros Ha Hr Hs. unfold results. rewrite (bind_run _ _ _ _ _ Ha).
  destruct x.
  - apply (merge_index_KeyError _ _ _ _ _ Hr Hs).
  - unfold merge, bind, except_KeyError, getkey, lift. rewrite Hr. simpl.
    rewrite Hs. reflexivity.
  - unfold merge, bind, except_KeyError, getkey, lift. rewrite Hr. simpl.
    rewrite Hs. reflexivity.
  - unfold merge, bind, except_KeyError, getkey, lift. rewrite Hr. simpl.
    rewrite Hs. reflexivity.
Qed.

Lemma index_errors_other_than_KeyError_are_raised_witness :
  results (reference ex_answer (Raise ConnectionError)) ex_params
          (fresh ex_answer (Raise ConnectionError) []) =
  (Raise ConnectionError,
   @World (reference ex_answer (Raise ConnectionError)) ["s1"] [] []
          [PostSession (VStr "s1"); GetResults "s1" 0 20]).
Proof.
  apply (index_errors_other_than_KeyError_are_raised
           (reference ex_answer (Raise ConnectionError)) ex_params
           (fresh ex_answer (Raise ConnectionError) []) _ ex_answer ex_ranked
           ConnectionError).
  - vm_compute. reflexivity.
  - reflexivity.
  - reflexivity.
Defined.

(** ** The merge: what is returned and what is raised *)

Section MergeFacts.

Lemma traverse_map {A B} (f : A -> outcome B) (g : A -> B) (l : list A) :
  Forall (fun a => f a = Ok (g a)) l -> traverse f l = Ok (map g l).
Proof.
  induction 1 as [ | a l Ha _ IH]; simpl; [ reflexivity | ].
  rewrite Ha, IH. reflexivity.
Qed.

Lemma traverse_first_failure {A B} (f : A -> outcome B) (good : list A) a rest e :
  Forall (fun a => exists b, f a = Ok b) good ->
  f a = Raise e ->
  traverse f (good ++ a :: rest) = Raise e.
Proof.
  intros Hgood Ha. induction Hgood as [ | x good [b Hx] _ IH]; simpl.
  - rewrite Ha. reflexivity.
  - rewrite Hx, IH. reflexivity.
Qed.

Lemma has_confidence_of cv d :
  has_confidence cv d -> confidence_of cv d = Ok (with_confidence cv d).
Proof.
  intros (sha & c & Hsha & Hc). unfold confidence_of, with_confidence.
  rewrite Hsha, Hc. reflexivity.
Qed.

Lemma confidence_of_has cv d d' :
  confidence_of cv d = Ok d' -> has_confidence cv d /\ d' = with_confidence cv d.
Proof.
  intros H. apply confidence_of_Ok in H as (sha & c & Hsha & Hc & ->).
  split; [ exists sha, c; auto | ].
  unfold with_confidence. rewrite Hsha, Hc. reflexivity.
Qed.

Lemma traverse_confidence cv documents :
  Forall (has_confidence cv) documents ->
  traverse (confidence_of cv) documents = Ok (map (with_confidence cv) documents).
Proof.
  intros H. apply traverse_map. eapply Forall_impl; [ exact H | ].
  intros d Hd. apply has_confidence_of. assumption.
Qed.

Lemma traverse_confidence_Ok cv documents ds :
  traverse (confidence_of cv) documents = Ok ds ->
  Forall (has_confidence cv) documents /\ ds = map (with_confidence cv) documents.
Proof.
  intros H. apply traverse_Ok in H.
  induction H as [ | d d' l l' Hd _ [IH1 IH2]]; [ split; [ constructor | reflexivity ] | ].
  apply confidence_of_has in Hd as [Hd ->]. subst l'.
  split; [ constructor; assumption | reflexivity ].
Qed.

Lemma dict_lookup_elem (pairs : list (string * Q)) k v :
  dict pairs !! k = Some v -> (k, v) ∈ pairs.
Proof.
  induction pairs as [ | [k' v'] pairs IH] using rev_ind.
  - unfold dict. simpl. rewrite lookup_empty. discriminate.
  - rewrite dict_snoc, elem_of_app, list_elem_of_singleton.
    destruct (decide (k' = k)) as [-> | Hne].
    + rewrite lookup_insert_eq. intros H. injection H as ->. right. reflexivity.
    + rewrite lookup_insert_ne by assumption. intros H. left. apply IH. assumption.
Qed.

Lemma results_page (S : services) params (w w1 w' : world S) (resp : payload)
    pairs documents pg :
  ask_engine S params w = (Ok resp, w1) ->
  ranked resp = Some pairs ->
  solr_documents_from_field S "sha1sum_s_md" (map fst pairs) = Ok documents ->
  results S params w = (Ok pg, w') ->
  total_results resp = Some (numFound pg) /\
  Forall (has_confidence (dict pairs)) documents /\
  exists keyed,
    traverse keyed_of (map (with_confidence (dict pairs)) documents) = Ok keyed /\
    map snd keyed = map (with_confidence (dict pairs)) documents /\
    docs pg = map snd (sort_desc keyed).
Proof.
  intros Ha Hr Hs H.
  destruct (ask_engine_sid _ _ _ _ Ha) as (sid & Hsid).
  unfold results in H. rewrite (bind_run _ _ _ _ _ Ha) in H.
  rewrite (merge_run params resp pairs documents sid w1 Hr Hs Hsid) in H.
  destruct (traverse (confidence_of (dict pairs)) documents) as [ds | ] eqn:Hds;
    [ | discriminate ].
  destruct (total_results resp) as [n | ]; [ | discriminate ].
  destruct (traverse_keyed _ _ _ Hds) as (keyed & Hk & Hm).
  rewrite Hk in H. injection H as <- _. simpl.
  apply traverse_confidence_Ok in Hds as [Hall ->].
  split; [ reflexivity | split; [ assumption | ] ].
  exists keyed. auto.
Qed.

End MergeFacts.

(** X6. An answer of the engine that has 'results' but no 'total_results'
    does not give the empty page: once every document has received its
    confidence, [results] raises [KeyError] for 'total_results'. *)
Theorem missing_total_results_is_raised
    (S : services) params (w w1 : world S) (resp : payload) pairs documents :
  ask_engine S params w = (Ok resp, w1) ->
  ranked resp = Some pairs ->
  solr_documents_from_field S "sha1sum_s_md" (map fst pairs) = Ok documents ->
  Forall (has_confidence (dict pairs)) documents ->
  total_results resp = None ->
  fst (results S params w) = Raise (KeyError "total_results").
Proof.
  intros Ha Hr Hs Hc Hn.
  destruct (ask_engine_sid _ _ _ _ Ha) as (sid & Hsid).
  unfold results. rewrite (bind_run _ _ _ _ _ Ha).
  rewrite (merge_run params resp pairs documents sid w1 Hr Hs Hsid).
  rewrite (traverse_confidence _ _ Hc), Hn. reflexivity.
Qed.

Lemma missing_total_results_is_raised_witness :
  fst (results (reference (Payload None (Some ex_ranked) "extra") (Ok [doc_a1; doc_a2]))
               ex_params
               (fresh (Payload None (Some ex_ranked) "extra") (Ok [doc_a1; doc_a2]) []))
  = Raise (KeyError "total_results").
Proof.
  apply (missing_total_results_is_raised
           (reference (Payload None (Some ex_ranked) "extra") (Ok [doc_a1; doc_a2]))
           ex_params
           (fresh (Payload None (Some ex_ranked) "extra") (Ok [doc_a1; doc_a2]) [])
           (@World (reference (Payload None (Some ex_ranked) "extra") (Ok [doc_a1; doc_a2]))
              ["s1"] [] [] [PostSession (VStr "s1"); GetResults "s1" 0 20])
           (Payload None (Some ex_ranked) "extra") ex_ranked [doc_a1; doc_a2]).
  - vm_compute. reflexivity.
  - reflexivity.
  - reflexivity.
  - repeat constructor.
    + exists "a1", (9 # 10)%Q. split; vm_compute; reflexivity.
    + exists "a2", (9 # 10)%Q. split; vm_compute; reflexivity.
  - reflexivity.
Defined.

(** X7. The request fails with the error of the first document, in the
    order of the index, that cannot receive a confidence: [IndexError] when
    its list of checksums is empty, [KeyError] with its representative
    checksum when the engine did not rank it.  Documents after it are not
    looked at. *)
Theorem first_unranked_document_decides_the_error
    (S : services) params (w w1 : world S) (resp : payload) pairs good d rest :
  ask_engine S params w = (Ok resp, w1) ->
  ranked resp = Some pairs ->
  solr_documents_from_field S "sha1sum_s_md" (map fst pairs) = Ok (good ++ d :: rest) ->
  Forall (has_confidence (dict pairs)) good ->
  (sha1sum_s_md d = Shas [] -> fst (results S params w) = Raise IndexError) /\
  (forall sha, first_sha (sha1sum_s_md d) = Ok sha -> dict pairs !! sha = None ->
               fst (results S params w) = Raise (KeyError sha)).
Proof.
  intros Ha Hr Hs Hgood.
  destruct (ask_engine_sid _ _ _ _ Ha) as (sid & Hsid).
  unfold results. rewrite (bind_run _ _ _ _ _ Ha).
  rewrite (merge_run params resp pairs _ sid w1 Hr Hs Hsid).
  assert (Hg : Forall (fun a => exists b, confidence_of (dict pairs) a = Ok b) good).
  { eapply Forall_impl; [ exact Hgood | ]. intros a Hc.
    eexists. apply has_confidence_of. assumption. }
  split.
  - intros Hd.
    rewrite (traverse_first_failure _ good d rest IndexError Hg); [ reflexivity | ].
    unfold confidence_of. rewrite Hd. reflexivity.
  - intros sha Hsha Hnone.
    rewrite (traverse_first_failure _ good d rest (KeyError sha) Hg); [ reflexivity | ].
    unfold confidence_of. rewrite Hsha, Hnone. reflexivity.
Qed.

Lemma first_unranked_document_decides_the_error_witness :
  fst (results (reference ex_answer (Ok [doc_a1; ex_no_checksum; ex_orphan])) ex_params
               (fresh ex_answer (Ok [doc_a1; ex_no_checksum; ex_orphan]) []))
  = Raise IndexError.
Proof.
  refine (proj1 (first_unranked_document_decides_the_error
           (reference ex_answer (Ok [doc_a1; ex_no_checksum; ex_orphan])) ex_params
           (fresh ex_answer (Ok [doc_a1; ex_no_checksum; ex_orphan]) [])
           (@World (reference ex_answer (Ok [doc_a1; ex_no_checksum; ex_orphan]))
              ["s1"] [] [] [PostSession (VStr "s1"); GetResults "s1" 0 20])
           ex_answer ex_ranked [doc_a1] ex_no_checksum [ex_orphan] _ _ _ _) _).
  - vm_compute. reflexivity.
  - reflexivity.
  - reflexivity.
  - repeat constructor. exists "a1", (9 # 10)%Q. split; vm_compute; reflexivity.
  - reflexivity.
Defined.

(** X8. A page that [results] returns after a ranking holds the count
    'total_results' of the engine, whatever the number of documents, and
    exactly the documents that the index resolved, each one once and with
    the confidence of its representative checksum: several documents of
    one checksum are all kept. *)
Theorem page_holds_every_resolved_document
    (S : services) params (w w1 w' : world S) (resp : payload) pairs documents pg :
  ask_engine S params w = (Ok resp, w1) ->
  ranked resp = Some pairs ->
  solr_documents_from_field S "sha1sum_s_md" (map fst pairs) = Ok documents ->
  results S params w = (Ok pg, w') ->
  total_results resp = Some (numFound pg) /\
  docs pg ≡ₚ map (with_confidence (dict pairs)) documents.
Proof.
  intros Ha Hr Hs H.
  destruct (results_page S _ _ _ _ _ _ _ _ Ha Hr Hs H)
    as (Hn & _ & keyed & _ & Hm & ->).
  split; [ assumption | ].
  rewrite <- Hm. apply fmap_Permutation. apply sort_desc_Permutation.
Qed.

Lemma page_holds_every_resolved_document_witness :
  total_results ex_answer =
    Some (numFound (Page 3 [scored doc_a2 (9 # 10); scored doc_a1 (9 # 10)])) /\
  docs (Page 3 [scored doc_a2 (9 # 10); scored doc_a1 (9 # 10)])
    ≡ₚ map (with_confidence (dict ex_ranked)) [doc_a1; doc_a2].
Proof.
  apply (page_holds_every_resolved_document ex_services ex_params ex_world ex_fetched
           (@World ex_services ["s1"] [] [no_document_line "s1"]
              [PostSession (VStr "s1"); GetResults "s1" 0 20])
           ex_answer ex_ranked [doc_a1; doc_a2]).
  - vm_compute. reflexivity.
  - reflexivity.
  - reflexivity.
  - vm_compute. reflexivity.
Defined.

(** X9. The confidence of a returned document is one that the engine gave
    to its representative checksum: the pair of the two is an entry of the
    ranking. *)
Theorem confidence_comes_from_a_ranked_entry
    (S : services) params (w w1 w' : world S) (resp : payload) pairs documents pg d :
  ask_engine S params w = (Ok resp, w1) ->
  ranked resp = Some pairs ->
  solr_documents_from_field S "sha1sum_s_md" (map fst pairs) = Ok documents ->
  results S params w = (Ok pg, w') ->
  d ∈ docs pg ->
  exists sha c,
    first_sha (sha1sum_s_md d) = Ok sha /\
    smqtk_iqr_confidence d = Some c /\
    (sha, c) ∈ pairs.
Proof.
  intros Ha Hr Hs H Hd.
  destruct (results_page S _ _ _ _ _ _ _ _ Ha Hr Hs H)
    as (_ & Hall & keyed & _ & Hm & Hdocs).
  rewrite Hdocs, sort_desc_Permutation, Hm in Hd.
  apply list_elem_of_fmap in Hd as (d0 & -> & Hd0).
  rewrite Forall_forall in Hall.
  destruct (Hall _ Hd0) as (sha & c & Hsha & Hc).
  exists sha, c. unfold with_confidence. simpl. rewrite Hsha.
  repeat split; [ assumption | ]. apply dict_lookup_elem. assumption.
Qed.

Lemma confidence_comes_from_a_ranked_entry_witness :
  exists sha c,
    first_sha (sha1sum_s_md (scored doc_a2 (9 # 10))) = Ok sha /\
    smqtk_iqr_confidence (scored doc_a2 (9 # 10)) = Some c /\
    (sha, c) ∈ ex_ranked.
Proof.
  apply (confidence_comes_from_a_ranked_entry ex_services ex_params ex_world ex_fetched
           (@World ex_services ["s1"] [] [no_document_line "s1"]
              [PostSession (VStr "s1"); GetResults "s1" 0 20])
           ex_answer ex_ranked [doc_a1; doc_a2]
           (Page 3 [scored doc_a2 (9 # 10); scored doc_a1 (9 # 10)])).
  - vm_compute. reflexivity.
  - reflexivity.
  - reflexivity.
  - vm_compute. reflexivity.
  - simpl. apply list_elem_of_here.
Defined.

(** ** The sort: stable, and unique when the keys differ *)

Section SortFacts.

Context {A : Type}.

Implicit Types (x y : (Q * string) * A) (l m : list ((Q * string) * A)).

Lemma insert_desc_filter (p : (Q * string) * A -> bool) x m :
  (p x = true -> forall y, y ∈ m -> p y = true -> key_lt x.1 y.1 = false) ->
  List.filter p (insert_desc x m) = List.filter p (x :: m).
Proof.
  induction m as [ | y m IH]; intros Hx; [ reflexivity | ].
  simpl insert_desc. destruct (key_lt x.1 y.1) eqn:E; [ | reflexivity ].
  assert (IH' : List.filter p (insert_desc x m) = List.filter p (x :: m)).
  { apply IH. intros Hp z Hz. apply Hx; [ assumption | right; assumption ]. }
  simpl. simpl in IH'. rewrite IH'.
  destruct (p x) eqn:Px; [ | reflexivity ].
  destruct (p y) eqn:Py; [ | reflexivity ].
  rewrite (Hx eq_refl y (list_elem_of_here _ _) Py) in E. discriminate.
Qed.

Lemma sort_desc_stable (p : (Q * string) * A -> bool) l :
  (forall x y, x ∈ l -> y ∈ l -> p x = true -> p y = true -> key_lt x.1 y.1 = false) ->
  List.filter p (sort_desc l) = List.filter p l.
Proof.
  induction l as [ | x l IH]; intros H; [ reflexivity | ].
  simpl sort_desc. rewrite insert_desc_filter.
  - simpl. rewrite IH; [ reflexivity | ].
    intros a b Ha Hb. apply H; right; assumption.
  - intros Px y Hy Py. rewrite sort_desc_Permutation in Hy.
    apply H; [ left | right; assumption | assumption | assumption ].
Qed.

Lemma filter_map_snd (p : A -> bool) l :
  List.filter p (map snd l) = map snd (List.filter (fun kx => p kx.2) l).
Proof.
  induction l as [ | x l IH]; [ reflexivity | ].
  simpl. rewrite IH. destruct (p x.2); reflexivity.
Qed.

Lemma sorted_unique {B} (R : B -> B -> Prop) (l1 l2 : list B) :
  StronglySorted R l1 -> StronglySorted R l2 -> l1 ≡ₚ l2 ->
  (forall a b, a ∈ l1 -> b ∈ l1 -> R a b -> R b a -> a = b) ->
  l1 = l2.
Proof.
  intros H1. revert l2.
  induction H1 as [ | a l1 Hl1 IH Ha]; intros l2 H2 Hp Hanti.
  - apply Permutation_nil_l in Hp. congruence.
  - destruct H2 as [ | b l2 Hl2 Hb].
    { apply Permutation_nil_r in Hp. discriminate. }
    assert (a = b) as <-.
    { destruct (proj1 (elem_of_cons _ _ _)
                  (proj1 (elem_of_Permutation_proper _ _ _ Hp) (list_elem_of_here a l1)))
        as [E | Hin]; [ exact E | ].
      destruct (proj1 (elem_of_cons _ _ _)
                  (proj2 (elem_of_Permutation_proper _ _ _ Hp) (list_elem_of_here b l2)))
        as [E | Hin']; [ symmetry; exact E | ].
      rewrite Forall_forall in Ha, Hb.
      apply Hanti; [ left | right; assumption | apply Ha; assumption | apply Hb; assumption ]. }
    f_equal. apply IH; [ assumption | eapply Permutation_cons_inv; eassumption | ].
    intros x y Hx Hy. apply Hanti; right; assumption.
Qed.

End SortFacts.

Lemma NoDup_fmap_eq {A B} (f : A -> B) (l : list A) (x y : A) :
  NoDup (map f l) -> x ∈ l -> y ∈ l -> f x = f y -> x = y.
Proof.
  induction l as [ | a l IH]; simpl; intros Hnd Hx Hy Hf; [ inversion Hx | ].
  apply NoDup_cons in Hnd as [Hnot Hnd].
  apply elem_of_cons in Hx as [-> | Hx]; apply elem_of_cons in Hy as [-> | Hy].
  - reflexivity.
  - exfalso. apply Hnot. rewrite Hf. apply list_elem_of_fmap. eauto.
  - exfalso. apply Hnot. rewrite <- Hf. apply list_elem_of_fmap. eauto.
  - apply IH; assumption.
Qed.

Lemma key_lt_irrefl (k : Q * string) : key_lt k k = false.
Proof.
  apply key_lt_false. right. split; [ reflexivity | ].
  destruct (String.leb_total k.2 k.2); assumption.
Qed.

Lemma ranked_by_with_confidence cv sha d :
  ranked_by sha (with_confidence cv d) = ranked_by sha d.
Proof. reflexivity. Qed.

Lemma ranked_by_sha sha d : ranked_by sha d = true -> first_sha (sha1sum_s_md d) = Ok sha.
Proof.
  unfold ranked_by. destruct (first_sha (sha1sum_s_md d)) as [s | ]; [ | discriminate ].
  intros H. apply String.eqb_eq in H. congruence.
Qed.

Lemma keyed_of_decorated x kx : keyed_of x = Ok kx -> decorated x = kx.
Proof. unfold decorated. intros ->. reflexivity. Qed.

Lemma traverse_keyed_decorated l keyed :
  traverse keyed_of l = Ok keyed ->
  keyed = map decorated l /\ Forall (fun x => keyed_of x = Ok (decorated x)) l.
Proof.
  intros H. apply traverse_Ok in H.
  induction H as [ | x kx l l' Hx _ [IH1 IH2]]; [ split; [ reflexivity | constructor ] | ].
  pose proof (keyed_of_decorated _ _ Hx) as <-. subst l'.
  split; [ reflexivity | constructor; assumption ].
Qed.

(** X10. The sort is stable on the documents of one checksum: the
    documents of the page that are ranked by a given checksum are, in the
    same order, the documents that the index listed for it. *)
Theorem page_keeps_the_index_order_within_a_checksum
    (S : services) params (w w1 w' : world S) (resp : payload) pairs documents pg
    (sha : string) :
  ask_engine S params w = (Ok resp, w1) ->
  ranked resp = Some pairs ->
  solr_documents_from_field S "sha1sum_s_md" (map fst pairs) = Ok documents ->
  results S params w = (Ok pg, w') ->
  List.filter (ranked_by sha) (docs pg) =
  map (with_confidence (dict pairs)) (List.filter (ranked_by sha) documents).
Proof.
  intros Ha Hr Hs H.
  destruct (results_page S _ _ _ _ _ _ _ _ Ha Hr Hs H)
    as (_ & Hall & keyed & Hk & Hm & ->).
  rewrite filter_map_snd, sort_desc_stable, <- filter_map_snd, Hm.
  - clear. induction documents as [ | d l IH]; [ reflexivity | ].
    simpl. rewrite ranked_by_with_confidence, IH.
    destruct (ranked_by sha d); reflexivity.
  - apply traverse_keyed_decorated in Hk as [-> Hdec].
    assert (Hkey : forall x, x ∈ map decorated (map (with_confidence (dict pairs)) documents) ->
                   ranked_by sha x.2 = true ->
                   x.1 = (default 0%Q (dict pairs !! sha), sha)).
    { intros x Hx Hp.
      apply list_elem_of_fmap in Hx as (d' & -> & Hd').
      rewrite Forall_forall in Hdec. pose proof (Hdec _ Hd') as Hd.
      apply list_elem_of_fmap in Hd' as (d & -> & Hd0).
      rewrite Forall_forall in Hall. destruct (Hall _ Hd0) as (s & c & Hs' & Hc).
      clear Hd.
      assert (Hd : keyed_of (with_confidence (dict pairs) d)
                   = Ok ((c, s), with_confidence (dict pairs) d)).
      { unfold keyed_of, with_confidence. simpl. rewrite Hs', Hc. reflexivity. }
      unfold decorated in Hp |- *. rewrite Hd in Hp |- *. simpl in Hp |- *.
      rewrite ranked_by_with_confidence in Hp. apply ranked_by_sha in Hp.
      assert (s = sha) as -> by congruence.
      rewrite Hc. reflexivity. }
    intros x y Hx Hy Px Py.
    rewrite (Hkey _ Hx Px), (Hkey _ Hy Py). apply key_lt_irrefl.
Qed.

(** Two documents of the checksum a1, with the document of a2 between
    them in the index. *)
Lemma page_keeps_the_index_order_within_a_checksum_witness :
  List.filter (ranked_by "a1")
    (docs (Page 3 [scored doc_a2 (9 # 10); scored doc_a1 (9 # 10);
                   scored doc_a1_twin (9 # 10)])) =
  map (with_confidence (dict ex_ranked))
      (List.filter (ranked_by "a1") [doc_a1; doc_a2; doc_a1_twin]).
Proof.
  apply (page_keeps_the_index_order_within_a_checksum ex_services_twin ex_params
           (fresh ex_answer (Ok [doc_a1; doc_a2; doc_a1_twin]) [])
           (@World ex_services_twin ["s1"] [] []
              [PostSession (VStr "s1"); GetResults "s1" 0 20])
           (@World ex_services_twin ["s1"] [] []
              [PostSession (VStr "s1"); GetResults "s1" 0 20])
           ex_answer ex_ranked [doc_a1; doc_a2; doc_a1_twin]).
  - vm_compute. reflexivity.
  - reflexivity.
  - reflexivity.
  - vm_compute. reflexivity.
Defined.

(** X11. When no two documents have the same representative checksum, the
    sorted list does not depend on the order in which the documents come:
    [sorted] gives the same list for every permutation of them. *)
Theorem sorted_reverse_ignores_the_order_of_distinct_checksums
    (S : services) (l1 l2 page : list document) (w w1 : world S) :
  sorted_reverse S l1 w = (Ok page, w1) ->
  l1 ≡ₚ l2 ->
  NoDup (map (fun d => first_sha (sha1sum_s_md d)) l1) ->
  sorted_reverse S l2 w = (Ok page, w).
Proof.
  intros H Hp Hnd. rewrite sorted_reverse_run in H |- *.
  destruct (traverse keyed_of l1) as [k1 | ] eqn:Hk1; [ | discriminate ].
  injection H as <- _.
  apply traverse_keyed_decorated in Hk1 as [-> Hdec].
  assert (Hk2 : traverse keyed_of l2 = Ok (map decorated l2)).
  { apply traverse_map. rewrite <- Hp. assumption. }
  rewrite Hk2. do 2 f_equal. f_equal.
  apply (sorted_unique key_ge); try apply sort_desc_sorted.
  - rewrite !sort_desc_Permutation. apply fmap_Permutation. symmetry. assumption.
  - intros a b Ha Hb Hab Hba.
    rewrite sort_desc_Permutation in Ha, Hb.
    apply list_elem_of_fmap in Ha as (da & -> & Hda).
    apply list_elem_of_fmap in Hb as (db & -> & Hdb).
    rewrite <- Hp in Hda, Hdb.
    f_equal. apply (NoDup_fmap_eq _ _ _ _ Hnd Hda Hdb).
    rewrite Forall_forall in Hdec.
    pose proof (Hdec _ Hda) as Ka. pose proof (Hdec _ Hdb) as Kb.
    unfold key_ge in Hab, Hba. apply key_lt_false in Hab, Hba.
    destruct (decorated da) as [ka xa]. destruct (decorated db) as [kb xb].
    apply keyed_of_Ok in Ka as (_ & _ & Fa). apply keyed_of_Ok in Kb as (_ & _ & Fb).
    simpl in *. rewrite Fa, Fb. f_equal.
    destruct Hab as [Lab | [Eab Sab]]; destruct Hba as [Lba | [Eba Sba]].
    + exfalso. apply (Qlt_irrefl ka.1). apply Qlt_trans with kb.1; assumption.
    + exfalso. rewrite Eba in Lab. apply (Qlt_irrefl _ Lab).
    + exfalso. rewrite Eab in Lba. apply (Qlt_irrefl _ Lba).
    + apply String.leb_antisym; assumption.
Qed.

Lemma sorted_reverse_ignores_the_order_of_distinct_checksums_witness :
  sorted_reverse ex_services [scored doc_a2 (9 # 10); scored doc_a1 (1 # 10)] ex_world =
  (Ok [scored doc_a2 (9 # 10); scored doc_a1 (1 # 10)], ex_world).
Proof.
  apply (sorted_reverse_ignores_the_order_of_distinct_checksums ex_services
           [scored doc_a1 (1 # 10); scored doc_a2 (9 # 10)]
           [scored doc_a2 (9 # 10); scored doc_a1 (1 # 10)] _ ex_world ex_world).
  - vm_compute. reflexivity.
  - apply Permutation_swap.
  - simpl. repeat constructor; [ | inversion 1 ].
    rewrite list_elem_of_singleton. discriminate.
Defined.

(** ** Refine: what is returned and what is raised *)

(** X12. [_refine] never looks at a status: once its parameters have the three
    keys and the creation call got an answer, whatever its status, the
    result is the decoded answer to the refine call, whatever its status
    too; it raises only when the engine cannot be reached or when that
    answer is not JSON. *)
Theorem refine_returns_the_answer_whatever_the_status
    (S : services) (params : gmap string value) (w : world S) sid pos neg :
  params !! "sid" = Some sid ->
  params !! "pos_uuids" = Some pos ->
  params !! "neg_uuids" = Some neg ->
  (forall e1 x,
     serve S (engine_state w) (PostSession sid) = (e1, Raise x) ->
     _refine S params w = (Raise x, answered w e1 [PostSession sid])) /\
  (forall e1 r1 e2 o2,
     serve S (engine_state w) (PostSession sid) = (e1, Ok r1) ->
     serve S e1 (PutRefine sid pos neg) = (e2, o2) ->
     _refine S params w =
     (match o2 with
      | Ok r => match body r with Some p => Ok p | None => Raise ValueError end
      | Raise x => Raise x
      end, answered w e2 [PostSession sid; PutRefine sid pos neg])).
Proof.
  intros Hsid Hpos Hneg. split.
  - intros e1 x H1. unfold _refine.
    rewrite (bind_run _ _ _ _ _ (getitem_run _ _ _ _ Hsid)).
    apply bind_raise. apply http_run. exact H1.
  - intros e1 r1 e2 o2 H1 H2.
    apply (refine_run _ _ _ _ _ _ _ _ _ Hsid Hpos Hneg H1 H2).
Qed.

Lemma refine_returns_the_answer_whatever_the_status_witness :
  _refine garbled ex_submitted (@World garbled [] [] [] []) =
  (Raise ValueError,
   @World garbled ["s1"] [] []
          [PostSession (VStr "s1");
           PutRefine (VStr "s1") (VList ["p1"; "p2"]) (VList ["n1"])]) /\
  _refine ex_services ex_submitted ex_world_live =
  (Ok (Payload None None "refined"),
   @World ex_services ["s1"] ex_stored []
          [PostSession (VStr "s1");
           PutRefine (VStr "s1") (VList ["p1"; "p2"]) (VList ["n1"])]).
Proof.
  split.
  - apply (proj2 (refine_returns_the_answer_whatever_the_status garbled ex_submitted
                    (@World garbled [] [] [] []) (VStr "s1")
                    (VList ["p1"; "p2"]) (VList ["n1"]) eq_refl eq_refl eq_refl)
             ["s1"] (Response 200 (Some (Payload None None "sid"))) ["s1"]
             (Ok (Response 500 None)));
      reflexivity.
  - apply (proj2 (refine_returns_the_answer_whatever_the_status ex_services ex_submitted
                    ex_world_live (VStr "s1")
                    (VList ["p1"; "p2"]) (VList ["n1"]) eq_refl eq_refl eq_refl)
             ["s1"] (Response 409 None) ["s1"]
             (Ok (Response 200 (Some (Payload None None "refined")))));
      reflexivity.
Defined.

(** X13. A refine without 'sid' raises [KeyError] before any call; a
    refine with a sid but without 'pos_uuids' or without 'neg_uuids'
    raises [KeyError] too, but after the creation call: the engine has the
    session although nothing was refined, and no refine call is made. *)
Theorem refine_without_its_keys
    (S : services) (params : gmap string value) (w : world S) :
  (params !! "sid" = None -> _refine S params w = (Raise (KeyError "sid"), w)) /\
  (forall sid e1 r1,
     params !! "sid" = Some sid ->
     serve S (engine_state w) (PostSession sid) = (e1, Ok r1) ->
     (params !! "pos_uuids" = None ->
      _refine S params w = (Raise (KeyError "pos_uuids"), answered w e1 [PostSession sid])) /\
     (is_Some (params !! "pos_uuids") -> params !! "neg_uuids" = None ->
      _refine S params w = (Raise (KeyError "neg_uuids"), answered w e1 [PostSession sid]))).
Proof.
  split.
  - intros Hsid. unfold _refine, bind, getitem. rewrite Hsid. reflexivity.
  - intros sid e1 r1 Hsid H1. split.
    + intros Hpos. unfold _refine.
      rewrite (bind_run _ _ _ _ _ (getitem_run _ _ _ _ Hsid)).
      rewrite (bind_run _ _ _ _ _ (http_run _ _ _ _ H1)).
      rewrite (bind_run _ _ _ _ _ (getitem_run _ _ _ _ Hsid)).
      unfold bind, getitem. simpl. rewrite Hpos. reflexivity.
    + intros [pos Hpos] Hneg. unfold _refine.
      rewrite (bind_run _ _ _ _ _ (getitem_run _ _ _ _ Hsid)).
      rewrite (bind_run _ _ _ _ _ (http_run _ _ _ _ H1)).
      rewrite (bind_run _ _ _ _ _ (getitem_run _ _ _ _ Hsid)).
      rewrite (bind_run _ _ _ _ _ (getitem_run _ _ _ _ Hpos)).
      unfold bind, getitem. simpl. rewrite Hneg. reflexivity.
Qed.

(** ** The parameters of [results] *)

(** X14. An 'offset' or a 'limit' that [int] refuses makes [results] raise
    that error, and a missing 'sid' makes it raise [KeyError], in each case
    before any call on the engine and with nothing logged: the world is
    unchanged. *)
Theorem results_with_bad_parameters
    (S : services) (params : gmap string string) (w : world S) :
  (forall s x,
     params !! "offset" = Some s -> py_int S s = Raise x ->
     results S params w = (Raise x, w)) /\
  (forall offset s x,
     int_param S params "offset" 0 = Ok offset ->
     params !! "limit" = Some s -> py_int S s = Raise x ->
     results S params w = (Raise x, w)) /\
  (forall offset limit,
     int_param S params "offset" 0 = Ok offset ->
     int_param S params "limit" 20 = Ok limit ->
     params !! "sid" = None ->
     results S params w = (Raise (KeyError "sid"), w)).
Proof.
  split; [ | split ].
  - intros s x Hs Hx. unfold results, ask_engine, bind, lift, int_param.
    rewrite Hs, Hx. reflexivity.
  - intros offset s x Ho Hs Hx. unfold results, ask_engine, bind, lift.
    rewrite Ho. unfold int_param. rewrite Hs, Hx. reflexivity.
  - intros offset limit Ho Hl Hsid.
    apply (results_reconcile_raises _ _ _ _ _ _ Ho Hl).
    unfold reconcile, bind, getitem. rewrite Hsid. reflexivity.
Qed.

(** ** An empty window, a failed replay *)

(** X15. When the engine ranks nothing in the window and the index
    resolves nothing, the page has no document but still the count
    'total_results' of the engine, which need not be zero; nothing is
    logged. *)
Theorem empty_window_keeps_the_total
    (S : services) params (w w1 : world S) (resp : payload) (n : Z) :
  ask_engine S params w = (Ok resp, w1) ->
  ranked resp = Some [] ->
  total_results resp = Some n ->
  solr_documents_from_field S "sha1sum_s_md" [] = Ok [] ->
  results S params w = (Ok (Page n []), w1).
Proof.
  intros Ha Hr Hn Hs.
  destruct (ask_engine_sid _ _ _ _ Ha) as (sid & Hsid).
  unfold results. rewrite (bind_run _ _ _ _ _ Ha).
  rewrite (merge_run params resp [] [] sid w1 Hr Hs Hsid), Hn. reflexivity.
Qed.

Lemma empty_window_keeps_the_total_witness :
  results (reference (Payload (Some 57) (Some []) "extra") (Ok [])) ex_params
          (fresh (Payload (Some 57) (Some []) "extra") (Ok []) []) =
  (Ok (Page 57 []),
   @World (reference (Payload (Some 57) (Some []) "extra") (Ok [])) ["s1"] [] []
          [PostSession (VStr "s1"); GetResults "s1" 0 20]).
Proof.
  apply (empty_window_keeps_the_total
           (reference (Payload (Some 57) (Some []) "extra") (Ok [])) ex_params
           (fresh (Payload (Some 57) (Some []) "extra") (Ok []) []) _
           (Payload (Some 57) (Some []) "extra") 57).
  - vm_compute. reflexivity.
  - reflexivity.
  - reflexivity.
  - reflexivity.
Defined.

(** X16. When the replay of the stored sets fails, because the engine
    cannot be reached for the refine call or because its answer is not
    JSON, [results] raises that error and does not fetch the ranking: the
    refine call is the last one. *)
Theorem failed_replay_stops_the_request
    (S : services) params (w : world S) (sid : string) (offset limit : Z)
    e1 r1 it pos neg e2 r2 e3 o3 :
  params !! "sid" = Some sid ->
  int_param S params "offset" 0 = Ok offset ->
  int_param S params "limit" 20 = Ok limit ->
  serve S (engine_state w) (PostSession (VStr sid)) = (e1, Ok r1) ->
  ok r1 = true ->
  List.find (has_sid sid) (items w) = Some it ->
  meta it !! "pos_uuids" = Some pos ->
  meta it !! "neg_uuids" = Some neg ->
  serve S e1 (PostSession (VStr sid)) = (e2, Ok r2) ->
  serve S e2 (PutRefine (VStr sid) pos neg) = (e3, o3) ->
  (forall x, o3 = Raise x ->
     results S params w =
     (Raise x, answered w e3 [PostSession (VStr sid); PostSession (VStr sid);
                              PutRefine (VStr sid) pos neg])) /\
  (forall r, o3 = Ok r -> body r = None ->
     results S params w =
     (Raise ValueError,
      answered w e3 [PostSession (VStr sid); PostSession (VStr sid);
                     PutRefine (VStr sid) pos neg])).
Proof.
  intros Hsid Ho Hl H1 Hok Hit Hpos Hneg H2 H3.
  pose proof (reconcile_replay _ _ _ _ _ _ _ _ _ _ _ _
                Hsid H1 Hok Hit Hpos Hneg H2 H3) as Hr.
  split.
  - intros x ->. apply (results_reconcile_raises _ _ _ _ _ _ Ho Hl). exact Hr.
  - intros r -> Hb. apply (results_reconcile_raises _ _ _ _ _ _ Ho Hl).
    rewrite Hr, Hb. reflexivity.
Qed.

Lemma failed_replay_stops_the_request_witness :
  results garbled ex_params (@World garbled [] ex_stored [] []) =
  (Raise ValueError,
   @World garbled ["s1"] ex_stored []
          [PostSession (VStr "s1"); PostSession (VStr "s1");
           PutRefine (VStr "s1") (VList ["p1"]) (VList [])]).
Proof.
  refine (proj2 (failed_replay_stops_the_request garbled ex_params
            (@World garbled [] ex_stored [] []) "s1" 0 20
            ["s1"] (Response 200 (Some (Payload None None "sid")))
            (Item "s1" {[ "sid" := VStr "s1"; "pos_uuids" := VList ["p1"];
                          "neg_uuids" := VList [] ]})
            (VList ["p1"]) (VList []) ["s1"] (Response 409 None)
            ["s1"] (Ok (Response 500 None)) _ _ _ _ _ _ _ _ _ _)
          (Response 500 None) _ _);
    vm_compute; reflexivity.
Defined.

(** ** The mapping, read back *)

Lemma dict_lookup_last (before after : list (string * Q)) (k : string) (v : Q) :
  k ∉ after.*1 -> dict (before ++ (k, v) :: after) !! k = Some v.
Proof.
  intros Hk. induction after as [ | [k' v'] after IH] using rev_ind.
  - rewrite dict_snoc. apply lookup_insert_eq.
  - rewrite fmap_app, not_elem_of_app in Hk. destruct Hk as [Hk Hk'].
    simpl in Hk'. rewrite list_elem_of_singleton in Hk'.
    change (before ++ (k, v) :: after ++ [(k', v')])
      with (before ++ ((k, v) :: after) ++ [(k', v')]).
    rewrite app_assoc, dict_snoc.
    rewrite lookup_insert_ne by congruence. apply IH. assumption.
Qed.

(** X17. When the engine ranks no checksum twice, the mapping holds
    exactly the ranked pairs: a checksum has a confidence in it if and only
    if the pair of the two is an entry of the ranking.  With or without
    duplicates, every confidence of the mapping comes from an entry. *)
Theorem dict_holds_exactly_the_ranking (pairs : list (string * Q)) (k : string) (v : Q) :
  (dict pairs !! k = Some v -> (k, v) ∈ pairs) /\
  (NoDup pairs.*1 -> (k, v) ∈ pairs -> dict pairs !! k = Some v).
Proof.
  split; [ apply dict_lookup_elem | ].
  intros Hnd Hin.
  apply list_elem_of_split in Hin as (before & after & ->).
  apply dict_lookup_last.
  rewrite fmap_app in Hnd. apply NoDup_app in Hnd as (_ & _ & Hnd).
  simpl in Hnd. apply NoDup_cons in Hnd as [Hk _]. exact Hk.
Qed.
